(** * SpaceX landing prediction: the model-comparison pipeline

    A shallow embedding of [SpaceX_Machine_Learning_Prediction_Part_5.py].

    The script is a linear sequence of stages (load, preprocess, train four
    model families by grid search, evaluate, report, save).  Each stage is
    embedded as a function; Python exceptions are values of an error monad
    and an uncaught exception ends the process with exit code 1.

    Conventions of the embedding:
    - Python floats are modelled by exact rationals ([Q]); rounding error of
      binary64 arithmetic is outside the model.
    - Calls into pandas, numpy and scikit-learn whose result is fully
      determined by simple counting (confusion matrix, accuracy, grid
      enumeration, split sizes, stratified allocation, shuffling) are written
      out after the library's documented algorithm.  Numerical learning
      routines (fitting, prediction, probability estimates, fold scores,
      ROC-AUC, log-loss, weighted precision/recall/F1, the square root and the
      Mersenne Twister stream) are fields of the class [Sklearn]: statements
      hold for every implementation of them.
    - Console output is modelled for the reporter's lines and for
      [print_model_performance]; plots and the creation of directories are
      not modelled. *)

From Stdlib Require Import String Ascii DecimalString.
From Stdlib Require Import ZArith QArith Qround Qabs Lqa.
From Stdlib Require Import Bool Lia Permutation Sorted List.
Import ListNotations.

Local Open Scope string_scope.
Local Open Scope list_scope.
Local Open Scope Z_scope.

(** ** Python: exceptions, process exit codes, number formatting *)

Module Py.

Inductive exn : Type :=
| FileNotFoundError
| KeyError (key : string)
| ValueError (msg : string)
| TypeError (msg : string)
| AttributeError (msg : string)
| SystemExit (code : Z).

Inductive result (A : Type) : Type :=
| Ok (a : A)
| Raise (e : exn).
Arguments Ok {A} a.
Arguments Raise {A} e.

Definition bind {A B} (r : result A) (k : A -> result B) : result B :=
  match r with
  | Ok a => k a
  | Raise e => Raise e
  end.

(** [try: body except FileNotFoundError: handler] *)
Definition except_FileNotFoundError {A} (body : result A) (handler : result A)
  : result A :=
  match body with
  | Raise FileNotFoundError => handler
  | r => r
  end.

(** [sys.exit(code)] *)
Definition sys_exit {A} (code : Z) : result A := Raise (SystemExit code).

(** Exit status of the interpreter: 0 when the script runs to its end, the
    argument of [sys.exit], and 1 for any uncaught exception. *)
Definition exit_code {A} (r : result A) : Z :=
  match r with
  | Ok _ => 0
  | Raise (SystemExit c) => c
  | Raise _ => 1
  end.

Definition is_ok {A} (r : result A) : bool :=
  match r with
  | Ok _ => true
  | Raise _ => false
  end.

(** Truth value of a float: everything but zero. *)
Definition truthy_float (q : Q) : bool := negb (Qeq_bool q 0).

(** Truth value of a [float | None]. *)
Definition truthy (o : option Q) : bool :=
  match o with
  | None => false
  | Some q => truthy_float q
  end.

Definition string_of_nat_dec (n : N) : string :=
  NilZero.string_of_uint (N.to_uint n).

Fixpoint zeros (n : nat) : string :=
  match n with
  | O => ""
  | S n' => String "0"%char (zeros n')
  end.

Definition zero_pad (width : nat) (s : string) : string :=
  (zeros (width - String.length s) ++ s)%string.

(** Round to the nearest integer, ties to even. *)
Definition round_half_even (q : Q) : Z :=
  let f := Qfloor q in
  match Qcompare (q - inject_Z f) (1 # 2) with
  | Lt => f
  | Gt => f + 1
  | Eq => if Z.even f then f else f + 1
  end.

(** [format(q, ".<digits>f")] for [digits > 0] *)
Definition format_f (digits : nat) (q : Q) : string :=
  let scale := 10 ^ Z.of_nat digits in
  let n := round_half_even (Qabs q * inject_Z scale) in
  let sign := match Qcompare q 0 with Lt => "-" | _ => "" end in
  (sign ++ string_of_nat_dec (Z.to_N (n / scale)) ++ "."
        ++ zero_pad digits (string_of_nat_dec (Z.to_N (n mod scale))))%string.

(** Formatting [None] with a float format specification raises. *)
Definition format_opt_f (digits : nat) (o : option Q) : result string :=
  match o with
  | Some q => Ok (format_f digits q)
  | None => Raise (TypeError "unsupported format string passed to NoneType.__format__")
  end.

(** [a < b] on floats *)
Definition Qlt_bool (a b : Q) : bool := negb (Qle_bool b a).

(** [max(xs, key=key)] on a non-empty sequence: the first maximal element. *)
Fixpoint max_from {A} (key : A -> Q) (best : A) (xs : list A) : A :=
  match xs with
  | [] => best
  | x :: rest =>
      if Qlt_bool (key best) (key x) then max_from key x rest
      else max_from key best rest
  end.

Definition max_by {A} (key : A -> Q) (xs : list A) : result A :=
  match xs with
  | [] => Raise (ValueError "max() arg is an empty sequence")
  | x :: rest => Ok (max_from key x rest)
  end.


End Py.
Import Py.

Notation "x <- c1 ;; c2" := (bind c1 (fun x => c2))
  (at level 61, c1 at next level, right associativity).
Notation "' pat <- c1 ;; c2" := (bind c1 (fun x => match x with pat => c2 end))
  (at level 61, pat pattern, c1 at next level, right associativity).

(** ** Vectors, matrices and tables *)

Definition Row := list Q.
Definition Matrix := list Row.
Definition Labels := list Z.

Module Np.

(** [np.unique]: the sorted distinct values. *)
Fixpoint insert_unique (x : Z) (l : list Z) : list Z :=
  match l with
  | [] => [x]
  | y :: rest =>
      match x ?= y with
      | Lt => x :: l
      | Eq => l
      | Gt => y :: insert_unique x rest
      end
  end.

Definition unique (l : list Z) : list Z := fold_right insert_unique [] l.

(** [a[idx]] with an index array: the selected rows, in index order. *)
Definition take_rows {A} (a : list A) (idx : list nat) : list A :=
  flat_map (fun i => match nth_error a i with Some x => [x] | None => [] end) idx.

Definition sumZ (l : list Z) : Z := fold_right Z.add 0 l.
Definition sumQ (l : list Q) : Q := fold_right Qplus 0%Q l.

(** [np.mean] *)
Definition mean (l : list Q) : Q := (sumQ l / inject_Z (Z.of_nat (length l)))%Q.

End Np.

Module Pd.

Record DataFrame (A : Type) : Type := {
  columns : list string;
  rows : list (list A)
}.
Arguments columns {A} d.
Arguments rows {A} d.

(** [len(df)] *)
Definition len {A} (df : DataFrame A) : nat := length (rows df).

Fixpoint index_of (name : string) (cols : list string) : option nat :=
  match cols with
  | [] => None
  | c :: rest =>
      if String.eqb c name then Some O
      else option_map S (index_of name rest)
  end.

(** [df[name].to_numpy()] *)
Definition getitem {A} (default : A) (df : DataFrame A) (name : string)
  : result (list A) :=
  match index_of name (columns df) with
  | None => Raise (KeyError name)
  | Some j => Ok (map (fun r => nth j r default) (rows df))
  end.

(** [pd.read_csv(path)]: a path holds a table or nothing. *)
Definition read_csv {A} (file : option (DataFrame A)) : result (DataFrame A) :=
  match file with
  | Some df => Ok df
  | None => Raise FileNotFoundError
  end.

End Pd.

(** ** Hyperparameters *)

Inductive Family : Type := LogisticRegression | SVC | DecisionTreeClassifier | KNeighborsClassifier.

Inductive PValue : Type :=
| PInt (z : Z)
| PFloat (q : Q)
| PStr (s : string)
| PNone.

(** A configuration is a dict from parameter name to value. *)
Definition Config := list (string * PValue).

(** An estimator before fitting: its family, constructor arguments that fix
    its random stream, and its hyperparameters. *)
Record Estimator : Type := {
  family : Family;
  probability : bool;
  random_state : option Z;
  params : Config
}.

(** A fitted estimator remembers the data it was fitted on. *)
Record Fitted : Type := {
  estimator : Estimator;
  fit_X : Matrix;
  fit_y : Labels
}.

(** ** The numerical routines of the libraries *)

Class Sklearn : Type := {
  (** [np.sqrt] *)
  np_sqrt : Q -> Q;
  (** the [k]-th output of the Mersenne Twister seeded with [seed] *)
  mt19937 : Z -> nat -> nat;
  (** accuracy of each of the [cv] folds for one candidate *)
  cross_val_scores : Estimator -> nat -> Matrix -> Labels -> list Q;
  (** [fitted.predict] on one sample *)
  predict_row : Fitted -> Row -> Z;
  (** [fitted.predict_proba] on one sample, the column of class 1 *)
  predict_proba_row : Fitted -> Row -> Q;
  (** [precision_score(.., average='weighted', zero_division=0)] and siblings *)
  precision_score : Labels -> Labels -> Q;
  recall_score : Labels -> Labels -> Q;
  f1_score : Labels -> Labels -> Q;
  (** these two raise [ValueError] on degenerate inputs *)
  roc_auc_score : Labels -> list Q -> result Q;
  log_loss : Labels -> list Q -> result Q
}.

(** ** Evaluation metrics *)

Module Metrics.

Definition pair_eqb (a b : Z * Z) : bool :=
  (fst a =? fst b) && (snd a =? snd b).

Definition count_pair (ps : list (Z * Z)) (p : Z * Z) : Z :=
  Z.of_nat (length (filter (pair_eqb p) ps)).

(** [sklearn.utils.multiclass.unique_labels(y_true, y_pred)] *)
Definition unique_labels (y_true y_pred : Labels) : list Z :=
  Np.unique (y_true ++ y_pred).

(** [confusion_matrix(y_true, y_pred)]: rows are true labels, columns are
    predicted labels, both in sorted label order. *)
Definition confusion_matrix (y_true y_pred : Labels) : result (list (list Z)) :=
  if (length y_true =? length y_pred)%nat then
    let labels := unique_labels y_true y_pred in
    let ps := combine y_true y_pred in
    Ok (map (fun t => map (fun p => count_pair ps (t, p)) labels) labels)
  else Raise (ValueError "Found input variables with inconsistent numbers of samples").

(** [cm.size] and [cm.ravel()] *)
Definition size (cm : list (list Z)) : nat := length (concat cm).
Definition ravel (cm : list (list Z)) : list Z := concat cm.

(** [accuracy_score(y_true, y_pred)] *)
Definition accuracy_score (y_true y_pred : Labels) : Q :=
  let hits := filter (fun p => fst p =? snd p) (combine y_true y_pred) in
  (inject_Z (Z.of_nat (length hits)) / inject_Z (Z.of_nat (length y_true)))%Q.

(** The dictionary returned by [calculate_metrics]. *)
Record t : Type := {
  model_name : string;
  accuracy : Q;
  precision : Q;
  recall : Q;
  f1 : Q;
  specificity : option Q;
  sensitivity : Q;
  roc_auc : option Q;
  logloss : option Q;
  cm : list (list Z);
  tp : option Z;
  tn : option Z;
  fp : option Z;
  fn : option Z
}.

Definition opt_apply {A B} (f : A -> result B) (o : option A) : result (option B) :=
  match o with
  | None => Ok None
  | Some a => b <- f a ;; Ok (Some b)
  end.

Section WithLibrary.
Context `{Sklearn}.

Definition calculate_metrics (y_true y_pred : Labels) (y_pred_proba : option (list Q))
    (name : string) : result t :=
  let accuracy := accuracy_score y_true y_pred in
  let precision := precision_score y_true y_pred in
  let recall := recall_score y_true y_pred in
  let f1 := f1_score y_true y_pred in
  cm <- confusion_matrix y_true y_pred ;;
  let '(tn, fp, fn, tp, specificity, sensitivity) :=
    match ravel cm with
    | [tn; fp; fn; tp] =>
        (Some tn, Some fp, Some fn, Some tp,
         Some (if 0 <? tn + fp then (inject_Z tn / inject_Z (tn + fp))%Q else 0%Q),
         if 0 <? tp + fn then (inject_Z tp / inject_Z (tp + fn))%Q else 0%Q)
    | _ => (None, None, None, None, None, recall)
    end in
  roc_auc <- opt_apply (roc_auc_score y_true) y_pred_proba ;;
  logloss <- opt_apply (log_loss y_true) y_pred_proba ;;
  Ok {| model_name := name;
        accuracy := accuracy;
        precision := precision;
        recall := recall;
        f1 := f1;
        specificity := specificity;
        sensitivity := sensitivity;
        roc_auc := roc_auc;
        logloss := logloss;
        cm := cm;
        tp := tp; tn := tn; fp := fp; fn := fn |}.

End WithLibrary.

End Metrics.

(** ** numpy's [RandomState] *)

Module Random.

(** The generator state: the seed and the number of outputs consumed. *)
Record RandomState : Type := { seed : Z; consumed : nat }.

(** [check_random_state(random_state)]: an integer seeds a fresh generator;
    [None] takes the seed from the operating system. *)
Definition check_random_state (random_state : option Z) (os_entropy : Z) : RandomState :=
  match random_state with
  | Some s => {| seed := s; consumed := O |}
  | None => {| seed := os_entropy; consumed := O |}
  end.

Definition set_nth {A} (x : list A) (i : nat) (a : A) : list A :=
  firstn i x ++ match skipn i x with [] => [] | _ :: rest => a :: rest end.

(** [x[i], x[j] = x[j], x[i]] *)
Definition swap {A} (x : list A) (i j : nat) : list A :=
  match nth_error x i, nth_error x j with
  | Some a, Some b => set_nth (set_nth x i b) j a
  | _, _ => x
  end.

Section WithLibrary.
Context `{Sklearn}.

(** A draw from [0, max], both ends included.  (numpy masks generator
    outputs and rejects those above [max]; here one output is reduced modulo
    the size of the range.) *)
Definition rk_interval (max : nat) (st : RandomState) : nat * RandomState :=
  (Nat.modulo (mt19937 (seed st) (consumed st)) (S max),
   {| seed := seed st; consumed := S (consumed st) |}).

(** [rng.shuffle(x)]: for [i] from [len(x) - 1] down to 1, exchange [x[i]]
    with [x[j]] for a drawn [j <= i]. *)
Fixpoint shuffle_from {A} (i : nat) (x : list A) (st : RandomState)
  : list A * RandomState :=
  match i with
  | O => (x, st)
  | S i' =>
      let '(j, st1) := rk_interval i st in
      shuffle_from i' (swap x i j) st1
  end.

Definition shuffle {A} (x : list A) (st : RandomState) : list A * RandomState :=
  shuffle_from (length x - 1) x st.

(** [rng.permutation(n)] for an integer [n] *)
Definition permutation_range (n : nat) (st : RandomState) : list nat * RandomState :=
  shuffle (seq 0 n) st.

(** [rng.permutation(a)] for an array [a] *)
Definition permutation {A} (a : list A) (st : RandomState) : list A * RandomState :=
  let '(idx, st1) := permutation_range (length a) st in
  (Np.take_rows a idx, st1).

(** [rng.choice(a, size=size, replace=False)] *)
Definition choice {A} (a : list A) (size : nat) (st : RandomState)
  : list A * RandomState :=
  let '(idx, st1) := permutation_range (length a) st in
  (Np.take_rows a (firstn size idx), st1).

End WithLibrary.

End Random.

(** ** Preprocessing: [StandardScaler] *)

Module Scaler.

Record StandardScaler : Type := { mean_ : list Q; scale_ : list Q }.

Definition column (X : Matrix) (j : nat) : list Q := map (fun r => nth j r 0%Q) X.

Section WithLibrary.
Context `{Sklearn}.

(** The standard deviation of a column, with zero replaced by one. *)
Definition column_scale (col : list Q) : Q :=
  let m := Np.mean col in
  let var := Np.mean (map (fun x => (x - m) * (x - m))%Q col) in
  let s := np_sqrt var in
  if Qeq_bool s 0 then 1%Q else s.

Definition fit (n_features : nat) (X : Matrix) : result StandardScaler :=
  if (length X <? 1)%nat then
    Raise (ValueError "Found array with 0 sample(s) while a minimum of 1 is required")
  else if (n_features <? 1)%nat then
    Raise (ValueError "Found array with 0 feature(s) while a minimum of 1 is required")
  else
    let cols := map (column X) (seq 0 n_features) in
    Ok {| mean_ := map Np.mean cols; scale_ := map column_scale cols |}.

Definition transform_row (sc : StandardScaler) (r : Row) : Row :=
  map (fun '(x, (m, s)) => ((x - m) / s)%Q) (combine r (combine (mean_ sc) (scale_ sc))).

Definition transform (sc : StandardScaler) (X : Matrix) : Matrix :=
  map (transform_row sc) X.

(** [scaler.fit_transform(X_raw)] on a data frame *)
Definition fit_transform (X_raw : Pd.DataFrame Q) : result (StandardScaler * Matrix) :=
  sc <- fit (length (Pd.columns X_raw)) (Pd.rows X_raw) ;;
  Ok (sc, transform sc (Pd.rows X_raw)).

End WithLibrary.

End Scaler.

(** ** Splitting: [train_test_split] with [stratify] *)

Module Split.

Import Random.

(** [_validate_shuffle_split(n_samples, test_size, train_size=None)] for a
    float [test_size]: the test part is rounded up, the train part is the
    rest. *)
Definition validate_shuffle_split (n_samples : nat) (test_size : Q) : result (Z * Z) :=
  if Qle_bool test_size 0 || Qle_bool 1 test_size then
    Raise (ValueError "test_size should be a float in the (0, 1) range")
  else
    let n_test := Qceiling (test_size * inject_Z (Z.of_nat n_samples)) in
    let n_train := Z.of_nat n_samples - n_test in
    if n_train =? 0 then
      Raise (ValueError "the resulting train set will be empty")
    else Ok (n_train, n_test).

Fixpoint insert_uniqueQ (x : Q) (l : list Q) : list Q :=
  match l with
  | [] => [x]
  | y :: rest =>
      match Qcompare x y with
      | Lt => x :: l
      | Eq => l
      | Gt => y :: insert_uniqueQ x rest
      end
  end.

(** [np.unique] on floats *)
Definition uniqueQ (l : list Q) : list Q := fold_right insert_uniqueQ [] l.

(** [np.where(remainder == value)] *)
Definition where_eq (remainder : list Q) (value : Q) : list nat :=
  filter (fun i => Qeq_bool (nth i remainder 0%Q) value) (seq 0 (length remainder)).

(** [floored[inds] += 1] *)
Definition increment_at (inds : list nat) (floored : list Z) : list Z :=
  map (fun '(i, f) => if existsb (Nat.eqb i) inds then f + 1 else f)
      (combine (seq 0 (length floored)) floored).

Definition class_counts_of (y : Labels) (classes : list Z) : list Z :=
  map (fun c => Z.of_nat (count_occ Z.eq_dec y c)) classes.

(** The positions of each class, in increasing order. *)
Definition class_indices (y : Labels) (classes : list Z) : list (list nat) :=
  map (fun c => filter (fun i => nth i y 0 =? c) (seq 0 (length y))) classes.

Definition minimum (l : list Z) : option Z :=
  match l with
  | [] => None
  | x :: rest => Some (fold_left Z.min rest x)
  end.

Record Partition : Type := {
  train : list nat;
  test : list nat;
  X_train : Matrix;
  X_test : Matrix;
  Y_train : Labels;
  Y_test : Labels
}.

Section WithLibrary.
Context `{Sklearn}.

(** The loop of [_approximate_mode] over the distinct remainders, largest
    first: classes with the largest left-over get one more draw, ties are
    broken at random. *)
Fixpoint add_by_remainder (values remainder : list Q) (floored : list Z)
    (need_to_add : Z) (st : RandomState) : list Z * RandomState :=
  match values with
  | [] => (floored, st)
  | value :: rest =>
      let inds := where_eq remainder value in
      let add_now := Z.min (Z.of_nat (length inds)) need_to_add in
      let '(chosen, st1) := choice inds (Z.to_nat add_now) st in
      let floored1 := increment_at chosen floored in
      let need1 := need_to_add - add_now in
      if need1 =? 0 then (floored1, st1)
      else add_by_remainder rest remainder floored1 need1 st1
  end.

(** [_approximate_mode(class_counts, n_draws, rng)]: how many of [n_draws]
    draws go to each class. *)
Definition approximate_mode (class_counts : list Z) (n_draws : Z) (st : RandomState)
  : list Z * RandomState :=
  let total := Np.sumZ class_counts in
  let continuous :=
    map (fun c => (inject_Z c / inject_Z total * inject_Z n_draws)%Q) class_counts in
  let floored := map Qfloor continuous in
  let need_to_add := n_draws - Np.sumZ floored in
  if 0 <? need_to_add then
    let remainder := map (fun x => (x - inject_Z (Qfloor x))%Q) continuous in
    let values := rev (uniqueQ remainder) in
    add_by_remainder values remainder floored need_to_add st
  else (floored, st).

(** Per class: permute its positions, the first [n_i] go to train and the
    next [t_i] to test. *)
Fixpoint draw_classes (cls : list (list nat)) (n_i t_i : list Z) (st : RandomState)
  : (list nat * list nat) * RandomState :=
  match cls, n_i, t_i with
  | c :: cls', n :: n_i', t :: t_i' =>
      let '(perm, st1) := permutation_range (length c) st in
      let perm_indices := Np.take_rows c perm in
      let train_c := firstn (Z.to_nat n) perm_indices in
      let test_c := firstn (Z.to_nat t) (skipn (Z.to_nat n) perm_indices) in
      let '((train, test), st2) := draw_classes cls' n_i' t_i' st1 in
      ((train_c ++ train, test_c ++ test), st2)
  | _, _, _ => (([], []), st)
  end.

(** [next(StratifiedShuffleSplit(test_size=n_test, train_size=n_train,
    random_state=random_state).split(X, y))] *)
Definition stratified_shuffle_split (n_train n_test : Z) (random_state : option Z)
    (os_entropy : Z) (y : Labels) : result (list nat * list nat) :=
  let classes := Np.unique y in
  let n_classes := Z.of_nat (length classes) in
  let class_counts := class_counts_of y classes in
  match minimum class_counts with
  | None => Raise (ValueError "zero-size array to reduction operation minimum")
  | Some least =>
      if least <? 2 then
        Raise (ValueError "The least populated class in y has only 1 member")
      else if n_train <? n_classes then
        Raise (ValueError "The train_size should be greater or equal to the number of classes")
      else if n_test <? n_classes then
        Raise (ValueError "The test_size should be greater or equal to the number of classes")
      else
        let cls := class_indices y classes in
        let rng := check_random_state random_state os_entropy in
        let '(n_i, rng1) := approximate_mode class_counts n_train rng in
        let class_counts_remaining :=
          map (fun '(c, n) => c - n) (combine class_counts n_i) in
        let '(t_i, rng2) := approximate_mode class_counts_remaining n_test rng1 in
        let '((train, test), rng3) := draw_classes cls n_i t_i rng2 in
        let '(train, rng4) := permutation train rng3 in
        let '(test, rng5) := permutation test rng4 in
        Ok (train, test)
  end.

(** [train_test_split(X, Y, test_size=test_size, random_state=random_state,
    stratify=stratify)] *)
Definition train_test_split (X : Matrix) (Y : Labels) (test_size : Q)
    (random_state : option Z) (os_entropy : Z) (stratify : Labels) : result Partition :=
  if negb ((length X =? length Y)%nat && (length X =? length stratify)%nat) then
    Raise (ValueError "Found input variables with inconsistent numbers of samples")
  else
    '(n_train, n_test) <- validate_shuffle_split (length X) test_size ;;
    '(train, test) <- stratified_shuffle_split n_train n_test random_state os_entropy stratify ;;
    Ok {| train := train; test := test;
          X_train := Np.take_rows X train; X_test := Np.take_rows X test;
          Y_train := Np.take_rows Y train; Y_test := Np.take_rows Y test |}.

End WithLibrary.

End Split.

(** ** Model selection: [ParameterGrid] and [GridSearchCV] *)

Module Search.

Definition Grid := list (string * list PValue).

Fixpoint insert_item (kv : string * list PValue) (l : Grid) : Grid :=
  match l with
  | [] => [kv]
  | kv' :: rest =>
      match String.compare (fst kv) (fst kv') with
      | Gt => kv' :: insert_item kv rest
      | _ => kv :: l
      end
  end.

(** [sorted(param_grid.items())] *)
Definition sorted_items (g : Grid) : Grid := fold_right insert_item [] g.

(** [itertools.product] over the value lists: the last key varies fastest. *)
Fixpoint product (items : Grid) : list Config :=
  match items with
  | [] => [[]]
  | (k, vs) :: rest => flat_map (fun v => map (cons (k, v)) (product rest)) vs
  end.

(** [list(ParameterGrid(param_grid))] *)
Definition ParameterGrid (g : Grid) : list Config := product (sorted_items g).

(** [rankdata(-scores, method='min')]: one plus the number of strictly
    better scores. *)
Definition rank_of (scores : list Q) (s : Q) : nat :=
  S (length (filter (fun s' => Qlt_bool s s') scores)).

Definition rank_test_score (scores : list Q) : list nat :=
  map (rank_of scores) scores.

(** [ranks.argmin()]: the first position of the smallest rank. *)
Fixpoint argmin_from (best_pos : nat) (best : nat) (pos : nat) (ranks : list nat) : nat :=
  match ranks with
  | [] => best_pos
  | r :: rest =>
      if (r <? best)%nat then argmin_from pos r (S pos) rest
      else argmin_from best_pos best (S pos) rest
  end.

Definition argmin (ranks : list nat) : result nat :=
  match ranks with
  | [] => Raise (ValueError "attempt to get argmin of an empty sequence")
  | r :: rest => Ok (argmin_from O r 1%nat rest)
  end.

Record GridSearchCV : Type := {
  base_estimator : Estimator;
  param_grid : Grid;
  cv : nat
}.

(** The attributes of a fitted search the script reads. *)
Record Fit : Type := {
  cv_candidates : list Config;
  mean_test_score : list Q;
  best_index_ : nat;
  best_params_ : Config;
  best_score_ : Q;
  best_estimator_ : Fitted
}.

Definition set_params (e : Estimator) (c : Config) : Estimator :=
  {| family := family e; probability := probability e;
     random_state := random_state e; params := c |}.

Section WithLibrary.
Context `{Sklearn}.

(** [search.fit(X, y)] with [scoring='accuracy'] and the default refit. *)
Definition fit (search : GridSearchCV) (X : Matrix) (y : Labels) : result Fit :=
  let candidates := ParameterGrid (param_grid search) in
  let means :=
    map (fun c => Np.mean (cross_val_scores (set_params (base_estimator search) c)
                                            (cv search) X y)) candidates in
  best <- argmin (rank_test_score means) ;;
  let best_params := nth best candidates [] in
  Ok {| cv_candidates := candidates;
        mean_test_score := means;
        best_index_ := best;
        best_params_ := best_params;
        best_score_ := nth best means 0%Q;
        best_estimator_ :=
          {| estimator := set_params (base_estimator search) best_params;
             fit_X := X; fit_y := y |} |}.

End WithLibrary.

End Search.

(** ** The script *)

Module Script.

Import Metrics Split Search.

(** What a run reads from outside: the two input files (absent or a table),
    the clock as read by successive [datetime.now()] calls, and the seed the
    operating system would give an unseeded generator. *)
Record Env : Type := {
  dataset_part_2 : option (Pd.DataFrame Z);
  dataset_part_3 : option (Pd.DataFrame Q);
  now : nat -> string;
  os_entropy : Z
}.

Definition nl : string := String "010"%char EmptyString.

Fixpoint join (sep : string) (l : list string) : string :=
  match l with
  | [] => ""
  | [s] => s
  | s :: rest => (s ++ sep ++ join sep rest)%string
  end.

Fixpoint repeat_string (s : string) (n : nat) : string :=
  match n with
  | O => ""
  | S n' => (s ++ repeat_string s n')%string
  end.

(** *** Data loading *)

Definition load_data (env : Env) : result (Pd.DataFrame Z * Pd.DataFrame Q) :=
  except_FileNotFoundError
    (data <- Pd.read_csv (dataset_part_2 env) ;;
     X_raw <- Pd.read_csv (dataset_part_3 env) ;;
     Ok (data, X_raw))
    (sys_exit 1).

(** *** Hyperparameter grids *)

Definition lr_params : Grid :=
  [ ("C", [PFloat (1 # 100); PFloat (1 # 10); PInt 1; PInt 10; PInt 100]);
    ("solver", [PStr "lbfgs"; PStr "liblinear"]);
    ("max_iter", [PInt 1000]) ].

Definition svm_params : Grid :=
  [ ("kernel", [PStr "linear"; PStr "rbf"]);
    ("C", [PFloat (1 # 10); PInt 1; PInt 10]);
    ("gamma", [PStr "scale"; PStr "auto"]) ].

Definition tree_params : Grid :=
  [ ("criterion", [PStr "gini"; PStr "entropy"]);
    ("splitter", [PStr "best"; PStr "random"]);
    ("max_depth", [PInt 2; PInt 4; PInt 6; PInt 8; PInt 10; PInt 12; PInt 14; PInt 16]);
    ("max_features", [PStr "sqrt"; PNone]);
    ("min_samples_leaf", [PInt 1; PInt 2; PInt 4]);
    ("min_samples_split", [PInt 2; PInt 5; PInt 10]) ].

Definition knn_params : Grid :=
  [ ("n_neighbors", [PInt 1; PInt 3; PInt 5; PInt 7; PInt 9; PInt 11; PInt 15]);
    ("algorithm", [PStr "auto"; PStr "ball_tree"; PStr "kd_tree"]);
    ("p", [PInt 1; PInt 2]);
    ("weights", [PStr "uniform"; PStr "distance"]) ].

Definition lr_model : Estimator :=
  {| family := LogisticRegression; probability := false;
     random_state := Some 42; params := [] |}.
Definition svm_model : Estimator :=
  {| family := SVC; probability := true; random_state := Some 42; params := [] |}.
Definition tree_model : Estimator :=
  {| family := DecisionTreeClassifier; probability := false;
     random_state := Some 42; params := [] |}.
Definition knn_model : Estimator :=
  {| family := KNeighborsClassifier; probability := false;
     random_state := None; params := [] |}.

(** The four sections of the script, in order. *)
Inductive Section_ : Type := LR | SVM | Tree | KNN.

Definition sections : list Section_ := [LR; SVM; Tree; KNN].

Definition model_of (s : Section_) : Estimator :=
  match s with LR => lr_model | SVM => svm_model | Tree => tree_model | KNN => knn_model end.

Definition grid_of (s : Section_) : Grid :=
  match s with LR => lr_params | SVM => svm_params | Tree => tree_params | KNN => knn_params end.

(** The [model_name] argument of [calculate_metrics]. *)
Definition display_name (s : Section_) : string :=
  match s with
  | LR => "Logistic Regression"
  | SVM => "Support Vector Machine"
  | Tree => "Decision Tree"
  | KNN => "K-Nearest Neighbors"
  end.

(** The key in [all_models_results] and the column of [metrics_df]. *)
Definition result_key (s : Section_) : string :=
  match s with
  | LR => "Logistic Regression"
  | SVM => "SVM"
  | Tree => "Decision Tree"
  | KNN => "KNN"
  end.

(** The metrics dictionary after [cv_accuracy] and [best_params] are added. *)
Record ModelResult : Type := {
  metrics : Metrics.t;
  cv_accuracy : Q;
  best_params : Config
}.

Definition Results := list (string * ModelResult).

(** [results[key] = value] on an insertion-ordered dict *)
Fixpoint setitem (results : Results) (key : string) (value : ModelResult) : Results :=
  match results with
  | [] => [(key, value)]
  | (k, v) :: rest =>
      if String.eqb k key then (k, value) :: rest
      else (k, v) :: setitem rest key value
  end.

Fixpoint getitem (results : Results) (key : string) : option ModelResult :=
  match results with
  | [] => None
  | (k, v) :: rest => if String.eqb k key then Some v else getitem rest key
  end.

(** A data frame of strings, column by column. *)
Definition Table := list (string * list string).

Definition metric_names : list string :=
  [ "Accuracy"; "Precision"; "Recall"; "F1-Score"; "CV Accuracy";
    "Specificity"; "Sensitivity"; "ROC AUC"; "Log Loss" ].

(** The column a section adds to [metrics_df]: the logistic-regression
    section formats its log-loss, the other three write the literal. *)
Definition table_column (s : Section_) (r : ModelResult) : result (list string) :=
  let m := metrics r in
  spec <- format_opt_f 4 (specificity m) ;;
  roc <- format_opt_f 4 (roc_auc m) ;;
  last <- match s with
          | LR => format_opt_f 4 (logloss m)
          | SVM | Tree | KNN => Ok "N/A"
          end ;;
  Ok [ format_f 4 (accuracy m); format_f 4 (precision m); format_f 4 (recall m);
       format_f 4 (f1 m); format_f 4 (cv_accuracy r); spec;
       format_f 4 (sensitivity m); roc; last ].

(** Whether [predict_proba] exists on a fitted estimator. *)
Definition has_predict_proba (e : Estimator) : bool :=
  match family e with
  | SVC => probability e
  | _ => true
  end.

Definition repr_int (z : Z) : string :=
  ((if (z <? 0)%Z then "-" else "") ++ string_of_nat_dec (Z.to_N (Z.abs z)))%string.

Fixpoint frac_digits (fuel : nat) (num den : Z) : string :=
  match fuel with
  | O => ""
  | S fuel' =>
      if num =? 0 then ""
      else (string_of_nat_dec (Z.to_N (num * 10 / den)%Z)
              ++ frac_digits fuel' ((num * 10) mod den)%Z den)%string
  end.

(** [repr] of a float with a short decimal expansion *)
Definition repr_float (q : Q) : string :=
  let a := Qabs q in
  let whole := Qfloor a in
  let den := Zpos (Qden a) in
  let r := Qnum a - whole * den in
  ((match Qcompare q 0 with Lt => "-" | _ => "" end)
     ++ string_of_nat_dec (Z.to_N whole) ++ "."
     ++ (if (r =? 0)%Z then "0" else frac_digits 17 r den))%string.

Definition repr_value (v : PValue) : string :=
  match v with
  | PInt z => repr_int z
  | PFloat q => repr_float q
  | PStr s => ("'" ++ s ++ "'")%string
  | PNone => "None"
  end.

(** [repr] of a parameter dict *)
Definition repr_config (c : Config) : string :=
  ("{" ++ join ", " (map (fun kv => "'" ++ fst kv ++ "': " ++ repr_value (snd kv)) c)
       ++ "}")%string.

(** [metrics_df.to_csv(path, index=False)] *)
Definition to_csv (t : Table) : string :=
  let header := join "," (map fst t) in
  let n_rows := match t with [] => O | (_, col) :: _ => length col end in
  let row i := join "," (map (fun c => nth i (snd c) "") t) in
  (header ++ nl ++ String.concat "" (map (fun i => row i ++ nl) (seq 0 n_rows)))%string.

(** The writes of the detailed-results loop body for one model. *)
Definition write_model (model_name : string) (r : ModelResult) : result (list string) :=
  let m := metrics r in
  let head :=
    [ (nl ++ model_name ++ nl)%string;
      (repeat_string "-" 40 ++ nl)%string;
      ("Accuracy:     " ++ format_f 4 (accuracy m) ++ nl)%string;
      ("Precision:    " ++ format_f 4 (precision m) ++ nl)%string;
      ("Recall:       " ++ format_f 4 (recall m) ++ nl)%string;
      ("F1-Score:     " ++ format_f 4 (f1 m) ++ nl)%string;
      ("CV Accuracy:  " ++ format_f 4 (cv_accuracy r) ++ nl)%string ] in
  spec <- format_opt_f 4 (specificity m) ;;
  let mid :=
    [ ("Specificity:  " ++ spec ++ nl)%string;
      ("Sensitivity:  " ++ format_f 4 (sensitivity m) ++ nl)%string ] in
  roc <- (if truthy (roc_auc m) then
            s <- format_opt_f 4 (roc_auc m) ;;
            Ok [ ("ROC AUC:      " ++ s ++ nl)%string ]
          else Ok []) ;;
  Ok (head ++ mid ++ roc ++ [ ("Best Params:  " ++ repr_config (best_params r) ++ nl)%string ]).

Fixpoint write_models (results : Results) : result (list string) :=
  match results with
  | [] => Ok []
  | (model_name, r) :: rest =>
      w <- write_model model_name r ;;
      ws <- write_models rest ;;
      Ok (w ++ ws)
  end.

(** All writes to the detailed-results file, in order. *)
Definition write_details (results : Results) : result (list string) :=
  ws <- write_models results ;;
  Ok ([ ("SpaceX Landing Prediction - Detailed Results" ++ nl)%string;
        (repeat_string "=" 60 ++ nl ++ nl)%string ] ++ ws).

(** *** Model comparison *)

Definition accuracy_of (results : Results) (k : string) : Q :=
  match getitem results k with Some r => accuracy (metrics r) | None => 0%Q end.

Definition cv_accuracy_of (results : Results) (k : string) : Q :=
  match getitem results k with Some r => cv_accuracy r | None => 0%Q end.

Record Report : Type := {
  best_model_name : string;
  best_model_accuracy : Q;
  best_cv_model_name : string;
  best_cv_accuracy : Q;
  report_lines : list string
}.

Definition percent (q : Q) : string := format_f 2 (q * 100)%Q.

Definition report (results : Results) : result Report :=
  best_model_name <- max_by (accuracy_of results) (map fst results) ;;
  let best_model_accuracy := accuracy_of results best_model_name in
  let line1 := (nl ++ "🏆 BEST MODEL: " ++ best_model_name)%string in
  let line2 := ("   Test Accuracy: " ++ format_f 4 best_model_accuracy
                  ++ " (" ++ percent best_model_accuracy ++ "%)")%string in
  best_cv_model_name <- max_by (cv_accuracy_of results) (map fst results) ;;
  let best_cv_accuracy := cv_accuracy_of results best_cv_model_name in
  let line3 := (nl ++ "🎯 BEST CV SCORE: " ++ best_cv_model_name)%string in
  let line4 := ("   CV Accuracy: " ++ format_f 4 best_cv_accuracy
                  ++ " (" ++ percent best_cv_accuracy ++ "%)")%string in
  Ok {| best_model_name := best_model_name;
        best_model_accuracy := best_model_accuracy;
        best_cv_model_name := best_cv_model_name;
        best_cv_accuracy := best_cv_accuracy;
        report_lines := [line1; line2; line3; line4] |}.

Record Preprocessed : Type := {
  Y : Labels;
  scaler : Scaler.StandardScaler;
  X : Matrix;
  partition : Partition
}.

Record Trained : Type := {
  search : Search.Fit;
  y_pred : Labels;
  y_pred_proba : option (list Q);
  outcome : ModelResult
}.

Record Run : Type := {
  preprocessed : Preprocessed;
  trained : list (Section_ * Trained);
  all_models_results : Results;
  metrics_df : Table;
  final_report : Report;
  comparison_file : string * string;
  details_file : string * list string
}.

Section WithLibrary.
Context `{Sklearn}.

(** *** Preprocessing *)

Definition preprocess (env : Env) (data : Pd.DataFrame Z) (X_raw : Pd.DataFrame Q)
  : result Preprocessed :=
  Y <- Pd.getitem 0 data "Class" ;;
  '(scaler, X) <- Scaler.fit_transform X_raw ;;
  p <- train_test_split X Y (2 # 10) (Some 42) (os_entropy env) Y ;;
  Ok {| Y := Y; scaler := scaler; X := X; partition := p |}.

(** *** One model section: search, predict, evaluate *)

Definition predict (f : Fitted) (X : Matrix) : Labels := map (predict_row f) X.

(** [fitted.predict_proba(X)[:, 1]] *)
Definition predict_proba (f : Fitted) (X : Matrix) : result (list Q) :=
  if has_predict_proba (estimator f) then Ok (map (predict_proba_row f) X)
  else Raise (AttributeError "predict_proba is not available when probability=False").

Definition train_and_evaluate (s : Section_) (p : Partition) : result Trained :=
  found <- Search.fit {| base_estimator := model_of s; param_grid := grid_of s; cv := 10 |}
                      (X_train p) (Y_train p) ;;
  let best := best_estimator_ found in
  let y_pred := predict best (X_test p) in
  y_pred_proba <- predict_proba best (X_test p) ;;
  m <- calculate_metrics (Y_test p) y_pred (Some y_pred_proba) (display_name s) ;;
  Ok {| search := found; y_pred := y_pred; y_pred_proba := Some y_pred_proba;
        outcome := {| metrics := m; cv_accuracy := best_score_ found;
                      best_params := best_params_ found |} |}.

(** The sections run in order; each stores its result and adds its column
    before the next one starts. *)
Fixpoint run_sections (todo : list Section_) (p : Partition)
    (done : list (Section_ * Trained)) (results : Results) (df : Table)
  : result (list (Section_ * Trained) * Results * Table) :=
  match todo with
  | [] => Ok (done, results, df)
  | s :: rest =>
      t <- train_and_evaluate s p ;;
      let results := setitem results (result_key s) (outcome t) in
      col <- table_column s (outcome t) ;;
      run_sections rest p (done ++ [(s, t)]) results (df ++ [(result_key s, col)])
  end.

(** *** The whole script *)

Definition main (env : Env) : result Run :=
  '(data, X_raw) <- load_data env ;;
  pre <- preprocess env data X_raw ;;
  '(trained, results, df) <-
     run_sections sections (partition pre) [] [] [("Metric", metric_names)] ;;
  rep <- report results ;;
  let output_file := ("model_comparison_" ++ now env 0%nat ++ ".csv")%string in
  let results_file := ("detailed_results_" ++ now env 1%nat ++ ".txt")%string in
  writes <- write_details results ;;
  Ok {| preprocessed := pre;
        trained := trained;
        all_models_results := results;
        metrics_df := df;
        final_report := rep;
        comparison_file := (output_file, to_csv df);
        details_file := (results_file, writes) |}.

End WithLibrary.

End Script.

(** ** Console output of one model: [print_model_performance] *)

Module Console.

Import Metrics Script.

(** [str.upper]: the letters a to z are raised. *)
Definition upper_char (c : ascii) : ascii :=
  let n := nat_of_ascii c in
  if ((97 <=? n) && (n <=? 122))%nat then ascii_of_nat (n - 32) else c.

Fixpoint upper (s : string) : string :=
  match s with
  | EmptyString => EmptyString
  | String c rest => String (upper_char c) (upper rest)
  end.

(** [upper] is [str.upper] on ASCII strings; other characters are outside
    the model. *)
Definition is_ascii (s : string) : bool :=
  forallb (fun c => (nat_of_ascii c <? 128)%nat) (list_ascii_of_string s).




End Console.

(** ** The project directories *)

Module Paths.

(** An absolute path: its components below the root, outermost first. *)
Definition Path := list string.

(** [p.name]; the root has the empty name. *)
Definition name (p : Path) : string := last p "".

(** [p.parents]: the ancestors of [p], nearest first, down to the root. *)
Definition parents (p : Path) : list Path :=
  map (fun k => firstn k p) (rev (seq 0 (length p))).

Definition PROJECT_NAME : string := "IBM".

Definition is_project (p : Path) : bool :=
  String.eqb (Console.upper (name p)) PROJECT_NAME.

(** The resolution of [project_root]; the flag tells whether the warning
    was printed. *)
Definition project_root (cwd : Path) : Path * bool :=
  if is_project cwd then (cwd, false)
  else match find is_project (parents cwd) with
       | Some p => (p, false)
       | None => (cwd, true)
       end.

(** [p / child] *)
Definition joinpath (p : Path) (child : string) : Path := p ++ [child].

Definition data_dir (cwd : Path) : Path := joinpath (fst (project_root cwd)) "data".
Definition output_dir (cwd : Path) : Path := joinpath (fst (project_root cwd)) "outputs".
Definition log_dir (cwd : Path) : Path := joinpath (fst (project_root cwd)) "logs".

End Paths.

(** ** A small implementation of the library interface, and sample inputs

    Used to run the pipeline on concrete data. *)

Module Sample.

Import Script.

Definition lookup_param (c : Config) (k : string) : option PValue :=
  option_map snd (find (fun kv => String.eqb (fst kv) k) c).

(** Fold scores that prefer [C = 1], seven neighbours and depth 4. *)
Definition sample_score (e : Estimator) : Q :=
  match family e with
  | LogisticRegression | SVC =>
      match lookup_param (params e) "C" with
      | Some (PInt 1) => 3 # 4
      | Some (PInt _) => 1 # 2
      | _ => 1 # 4
      end
  | DecisionTreeClassifier =>
      match lookup_param (params e) "max_depth" with
      | Some (PInt 4) => 5 # 8
      | _ => 1 # 2
      end
  | KNeighborsClassifier =>
      match lookup_param (params e) "n_neighbors" with
      | Some (PInt 7) => 7 # 8
      | _ => 1 # 2
      end
  end.

Definition sample_predict (f : Fitted) (r : Row) : Z :=
  match family (estimator f) with
  | KNeighborsClassifier => 1
  | _ => if Qle_bool 0 (nth 0 r 0%Q) then 1 else 0
  end.

Definition sample_library : Sklearn := {|
  np_sqrt := fun q => inject_Z (Z.sqrt (Qceiling q));
  mt19937 := fun seed k => Z.to_nat ((seed * 7919 + Z.of_nat k * Z.of_nat k * 31 + 17) mod 104729);
  cross_val_scores := fun e cv _ _ => repeat (sample_score e) cv;
  predict_row := sample_predict;
  predict_proba_row := fun f r =>
    match family (estimator f) with
    | KNeighborsClassifier => 1 # 4
    | _ => if Qle_bool 0 (nth 0 r 0%Q) then 3 # 4 else 1 # 4
    end;
  precision_score := Metrics.accuracy_score;
  recall_score := Metrics.accuracy_score;
  f1_score := Metrics.accuracy_score;
  roc_auc_score := fun y p =>
    Ok (if forallb (fun x => Qle_bool x (1 # 2)) p then 0%Q else 3 # 4);
  log_loss := fun _ _ => Ok (1 # 3)
|}.

(** Ten launches with two features; the landing succeeded for six. *)
Definition sample_features : Pd.DataFrame Q := {|
  Pd.columns := ["PayloadMass"; "Flights"];
  Pd.rows :=
    [ [5 # 1; 1 # 1]; [3 # 1; 1 # 1]; [9 # 1; 2 # 1]; [1 # 1; 1 # 1]; [7 # 1; 3 # 1];
      [2 # 1; 1 # 1]; [8 # 1; 2 # 1]; [6 # 1; 4 # 1]; [4 # 1; 1 # 1]; [10 # 1; 5 # 1] ]
|}.

Definition sample_labels : Pd.DataFrame Z := {|
  Pd.columns := ["FlightNumber"; "Class"];
  Pd.rows := [ [1; 1]; [2; 0]; [3; 1]; [4; 0]; [5; 1]; [6; 0]; [7; 1]; [8; 1]; [9; 0]; [10; 1] ]
|}.

Definition sample_clock (k : nat) : string :=
  match k with O => "20260101_120000" | _ => "20260101_120001" end.

Definition sample_env : Env := {|
  dataset_part_2 := Some sample_labels;
  dataset_part_3 := Some sample_features;
  now := sample_clock;
  os_entropy := 7
|}.

(** The feature table has one row more than the label table. *)
Definition mismatched_env : Env := {|
  dataset_part_2 := Some sample_labels;
  dataset_part_3 :=
    Some {| Pd.columns := Pd.columns sample_features;
            Pd.rows := Pd.rows sample_features ++ [[11 # 1; 1 # 1]] |};
  now := sample_clock;
  os_entropy := 7
|}.

(** Ninety launches, every third one failed. *)
Definition ninety_labels : Labels :=
  map (fun i => if (i mod 3 =? 0)%nat then 0 else 1) (seq 0 90).

Definition ninety_features : Matrix :=
  map (fun i => [inject_Z (Z.of_nat i); inject_Z (Z.of_nat (i mod 7))]) (seq 0 90).







End Sample.

(** * Properties *)

Import Py.

(** ** Sorted distinct values *)

Lemma insert_unique_In (x y : Z) (l : list Z) :
  In y (Np.insert_unique x l) <-> y = x \/ In y l.
Proof.
  induction l as [|z l IH]; simpl.
  - intuition.
  - destruct (x ?= z) eqn:E; simpl.
    + apply Z.compare_eq in E. subst. intuition.
    + intuition.
    + rewrite IH. intuition.
Qed.

Lemma unique_In (y : Z) (l : list Z) : In y (Np.unique l) <-> In y l.
Proof.
  induction l as [|x l IH]; simpl.
  - tauto.
  - unfold Np.unique in *. simpl. rewrite insert_unique_In, IH. intuition.
Qed.

Lemma insert_unique_sorted (x : Z) (l : list Z) :
  Sorted.StronglySorted Z.lt l -> Sorted.StronglySorted Z.lt (Np.insert_unique x l).
Proof.
  induction 1 as [|z l Hs IH Hall]; simpl.
  - repeat constructor.
  - destruct (Z.compare_spec x z) as [E|E|E].
    + constructor; assumption.
    + constructor.
      * constructor; assumption.
      * constructor; [assumption|].
        eapply Forall_impl; [|exact Hall]. simpl. intros. lia.
    + constructor; [assumption|].
      apply Forall_forall. intros w Hw. apply insert_unique_In in Hw.
      destruct Hw as [->|Hw]; [assumption|].
      rewrite Forall_forall in Hall. auto.
Qed.

Lemma unique_sorted (l : list Z) : Sorted.StronglySorted Z.lt (Np.unique l).
Proof.
  induction l as [|x l IH]; simpl.
  - constructor.
  - apply insert_unique_sorted, IH.
Qed.

Lemma strongly_sorted_lt_NoDup (l : list Z) :
  Sorted.StronglySorted Z.lt l -> NoDup l.
Proof.
  induction 1 as [|z l Hs IH Hall]; constructor; [|assumption].
  intro Hin. rewrite Forall_forall in Hall. specialize (Hall _ Hin). lia.
Qed.

Lemma unique_NoDup (l : list Z) : NoDup (Np.unique l).
Proof. apply strongly_sorted_lt_NoDup, unique_sorted. Qed.

(** ** The confusion matrix *)

Section ConfusionMatrix.
Import Metrics.

Lemma concat_table {A B} (g : A -> A -> B) (cols rows : list A) :
  length (concat (map (fun t => map (g t) cols) rows))
  = (length rows * length cols)%nat.
Proof.
  induction rows as [|t rest IH]; simpl.
  - reflexivity.
  - rewrite length_app, length_map, IH. reflexivity.
Qed.

(** The matrix is square over the labels that occur. *)
Lemma confusion_matrix_shape (y_true y_pred : Labels) (m : list (list Z)) :
  confusion_matrix y_true y_pred = Ok m ->
  let labels := unique_labels y_true y_pred in
  length m = length labels /\
  Forall (fun row => length row = length labels) m /\
  size m = (length labels * length labels)%nat.
Proof.
  unfold confusion_matrix. destruct (_ =? _)%nat; [|discriminate].
  intros [= <-]. cbn zeta. repeat split.
  - apply length_map.
  - apply Forall_forall. intros row Hrow. apply in_map_iff in Hrow.
    destruct Hrow as (t & <- & _). apply length_map.
  - unfold size. apply concat_table.
Qed.

(** [cm.size == 4] holds exactly for a 2 x 2 matrix. *)
Lemma size_4_iff_2x2 (y_true y_pred : Labels) (m : list (list Z)) :
  confusion_matrix y_true y_pred = Ok m ->
  (size m = 4%nat <-> length m = 2%nat /\ Forall (fun row => length row = 2%nat) m).
Proof.
  intros Hm. destruct (confusion_matrix_shape _ _ _ Hm) as (Hlen & Hrows & Hsize).
  rewrite Hsize, Hlen. split.
  - intros Hsq. assert (length (unique_labels y_true y_pred) = 2%nat) as E by nia.
    rewrite E in *. auto.
  - intros [E _]. rewrite E. reflexivity.
Qed.

Lemma pair_eqb_pair (x y t p : Z) : pair_eqb (x, y) (t, p) = (x =? t) && (y =? p).
Proof. reflexivity. Qed.

Lemma count_pairs_two_labels (a b : Z) (ps : list (Z * Z)) :
  a <> b ->
  Forall (fun p => (fst p = a \/ fst p = b) /\ (snd p = a \/ snd p = b)) ps ->
  count_pair ps (a, a) + count_pair ps (a, b) + count_pair ps (b, a) + count_pair ps (b, b)
  = Z.of_nat (length ps).
Proof.
  intros Hab. unfold count_pair.
  induction 1 as [|[t p] ps Hp Hall IH].
  - reflexivity.
  - cbn [filter fst snd] in *.
    destruct Hp as [[-> | ->] [-> | ->]];
      rewrite !pair_eqb_pair, ?Z.eqb_refl;
      try (replace (a =? b) with false by (symmetry; apply Z.eqb_neq; assumption));
      try (replace (b =? a) with false by (symmetry; apply Z.eqb_neq; congruence));
      cbn [andb length]; lia.
Qed.

Lemma combine_members (y_true y_pred : Labels) :
  Forall (fun p => In (fst p) (y_true ++ y_pred) /\ In (snd p) (y_true ++ y_pred))
         (combine y_true y_pred).
Proof.
  apply Forall_forall. intros [t p] Hin. simpl. split; apply in_or_app.
  - left. eapply in_combine_l; eassumption.
  - right. eapply in_combine_r; eassumption.
Qed.

(** The shape of a confusion matrix of size four and the sum of its cells. *)
Lemma confusion_matrix_size_4 (y_true y_pred : Labels) (m : list (list Z))
      (c_tn c_fp c_fn c_tp : Z) :
  confusion_matrix y_true y_pred = Ok m ->
  ravel m = [c_tn; c_fp; c_fn; c_tp] ->
  m = [[c_tn; c_fp]; [c_fn; c_tp]] /\
  0 <= c_tn /\ 0 <= c_fp /\ 0 <= c_fn /\ 0 <= c_tp /\
  c_tp + c_tn + c_fp + c_fn = Z.of_nat (length y_true).
Proof.
  intros Hm Hravel.
  destruct (confusion_matrix_shape _ _ _ Hm) as (_ & _ & Hsize).
  unfold size in Hsize. fold (ravel m) in Hsize. rewrite Hravel in Hsize. simpl in Hsize.
  assert (length (unique_labels y_true y_pred) = 2%nat) as Hl by nia.
  unfold confusion_matrix in Hm.
  destruct (length y_true =? length y_pred)%nat eqn:Elen; [|discriminate].
  apply Nat.eqb_eq in Elen. injection Hm as <-.
  pose proof (unique_NoDup (y_true ++ y_pred)) as Hnd.
  pose proof (fun z => unique_In z (y_true ++ y_pred)) as Hin.
  unfold unique_labels in *.
  destruct (Np.unique (y_true ++ y_pred)) as [|a [|b [|? ?]]]; try discriminate.
  cbn [map concat app ravel] in Hravel. injection Hravel as <- <- <- <-.
  split; [reflexivity|].
  assert (a <> b) as Hab.
  { inversion Hnd as [|? ? Hna _]; subst. intros ->. apply Hna. left. reflexivity. }
  repeat split; try (unfold count_pair; lia).
  pose proof (count_pairs_two_labels a b (combine y_true y_pred) Hab) as Hsum.
  rewrite length_combine, <- Elen, Nat.min_id in Hsum.
  rewrite <- Hsum; [lia|].
  eapply Forall_impl; [|apply combine_members].
  intros [t p] [Ht Hp]. simpl in *.
  apply Hin in Ht. apply Hin in Hp. simpl in Ht, Hp. intuition.
Qed.

End ConfusionMatrix.

(** ** [calculate_metrics] *)

Section CalculateMetrics.
Import Metrics.
Context `{Sklearn}.


(** What a successful call returns, by the size of the confusion matrix. *)
Lemma calculate_metrics_inv (y_true y_pred : Labels) (proba : option (list Q))
      (name : string) (m : Metrics.t) :
  calculate_metrics y_true y_pred proba name = Ok m ->
  confusion_matrix y_true y_pred = Ok (cm m) /\
  opt_apply (roc_auc_score y_true) proba = Ok (roc_auc m) /\
  opt_apply (log_loss y_true) proba = Ok (logloss m) /\
  recall m = recall_score y_true y_pred /\
  match ravel (cm m) with
  | [c_tn; c_fp; c_fn; c_tp] =>
      tn m = Some c_tn /\ fp m = Some c_fp /\ fn m = Some c_fn /\ tp m = Some c_tp /\
      specificity m
        = Some (if 0 <? c_tn + c_fp then (inject_Z c_tn / inject_Z (c_tn + c_fp))%Q else 0%Q) /\
      sensitivity m
        = (if 0 <? c_tp + c_fn then (inject_Z c_tp / inject_Z (c_tp + c_fn))%Q else 0%Q)
  | _ =>
      tn m = None /\ fp m = None /\ fn m = None /\ tp m = None /\
      specificity m = None /\ sensitivity m = recall m
  end.
Proof.
  unfold calculate_metrics.
  destruct (confusion_matrix y_true y_pred) as [c|e]; [|discriminate].
  cbn [bind].
  destruct (opt_apply (roc_auc_score y_true) proba) as [roc|e]; cbn [bind].
  2:{ destruct (ravel c) as [|? [|? [|? [|? [|? ?]]]]]; discriminate. }
  destruct (opt_apply (log_loss y_true) proba) as [ll|e]; cbn [bind].
  2:{ destruct (ravel c) as [|? [|? [|? [|? [|? ?]]]]]; discriminate. }
  destruct (ravel c) as [|c1 [|c2 [|c3 [|c4 [|c5 rest]]]]] eqn:E;
    intros [= <-]; cbn [cm roc_auc logloss recall tn fp fn tp specificity sensitivity];
    rewrite E; repeat split; reflexivity.
Qed.

Lemma size_ravel_4 (c : list (list Z)) :
  size c = 4%nat <-> exists c_tn c_fp c_fn c_tp, ravel c = [c_tn; c_fp; c_fn; c_tp].
Proof.
  unfold size, ravel. split.
  - destruct (concat c) as [|c1 [|c2 [|c3 [|c4 [|c5 rest]]]]]; try discriminate.
    intros _. eauto.
  - intros (? & ? & ? & ? & ->). reflexivity.
Qed.

End CalculateMetrics.

(** ** Evaluation of one model section *)

Section Evaluation.
Import Metrics Split Search Script.
Context `{Sklearn}.


End Evaluation.

(** C6: specificity is TN/(TN+FP) exactly when the confusion matrix is
    2 x 2 (its size is four; a zero denominator gives 0), and is undefined
    otherwise, in which case sensitivity is the weighted recall. *)
Theorem specificity_defined_iff_2x2 `{Sklearn}
    (y_true y_pred : Labels) (proba : option (list Q)) (name : string) (m : Metrics.t) :
  Metrics.calculate_metrics y_true y_pred proba name = Ok m ->
  (Metrics.size (Metrics.cm m) = 4%nat <->
     length (Metrics.cm m) = 2%nat /\
     Forall (fun row => length row = 2%nat) (Metrics.cm m)) /\
  (Metrics.size (Metrics.cm m) = 4%nat ->
     exists c_tn c_fp c_fn c_tp,
       Metrics.cm m = [[c_tn; c_fp]; [c_fn; c_tp]] /\
       Metrics.specificity m
       = Some (if 0 <? c_tn + c_fp
               then (inject_Z c_tn / inject_Z (c_tn + c_fp))%Q else 0%Q) /\
       Metrics.sensitivity m
       = (if 0 <? c_tp + c_fn
          then (inject_Z c_tp / inject_Z (c_tp + c_fn))%Q else 0%Q)) /\
  (Metrics.size (Metrics.cm m) <> 4%nat ->
     Metrics.specificity m = None /\
     Metrics.sensitivity m = Metrics.recall m /\
     Metrics.recall m = recall_score y_true y_pred).
Proof.
  intros Hm.
  destruct (calculate_metrics_inv _ _ _ _ _ Hm) as (Hcm & _ & _ & Hrec & Hcase).
  split; [apply (size_4_iff_2x2 _ _ _ Hcm)|]. split.
  - intros Hsize. apply size_ravel_4 in Hsize.
    destruct Hsize as (c_tn & c_fp & c_fn & c_tp & Hr).
    rewrite Hr in Hcase. destruct Hcase as (_ & _ & _ & _ & Hspec & Hsens).
    exists c_tn, c_fp, c_fn, c_tp.
    destruct (confusion_matrix_size_4 _ _ _ _ _ _ _ Hcm Hr) as (Hshape & _).
    auto.
  - intros Hsize.
    assert (~ exists a b c d, Metrics.ravel (Metrics.cm m) = [a; b; c; d]) as Hn.
    { intros Hex. apply Hsize. apply size_ravel_4. exact Hex. }
    destruct (Metrics.ravel (Metrics.cm m)) as [|c1 [|c2 [|c3 [|c4 [|c5 rest]]]]];
      try (destruct Hcase as (_ & _ & _ & _ & Hspec & Hsens); auto).
    exfalso. apply Hn. eauto.
Qed.

Lemma specificity_defined_iff_2x2_witness :
  exists m,
    Metrics.calculate_metrics (H := Sample.sample_library) [0; 0; 1; 1] [0; 1; 1; 1] None "KNN"
    = Ok m /\
    Metrics.specificity m = Some (1 # 2) /\ Metrics.sensitivity m = (2 # 2)%Q.
Proof.
  eexists. split; [reflexivity|].
  destruct (specificity_defined_iff_2x2 (H := Sample.sample_library)
              [0; 0; 1; 1] [0; 1; 1; 1] None "KNN" _ eq_refl) as (_ & Hyes & _).
  destruct (Hyes eq_refl) as (c_tn & c_fp & c_fn & c_tp & Hcm & Hspec & Hsens).
  injection Hcm as <- <- <- <-. split; assumption.
Defined.



(** ** The pipeline, stage by stage *)

Section Pipeline.
Import Metrics Split Search Script.
Context `{Sklearn}.

Lemma load_data_cases (env : Env) :
  match dataset_part_2 env, dataset_part_3 env with
  | Some data, Some X_raw => load_data env = Ok (data, X_raw)
  | _, _ => load_data env = Raise (SystemExit 1)
  end.
Proof.
  unfold load_data.
  destruct (dataset_part_2 env), (dataset_part_3 env); reflexivity.
Qed.

Lemma getitem_length {A} (d : A) (df : Pd.DataFrame A) (name : string) (col : list A) :
  Pd.getitem d df name = Ok col -> length col = Pd.len df.
Proof.
  unfold Pd.getitem, Pd.len. destruct (Pd.index_of _ _); [|discriminate].
  intros [= <-]. apply length_map.
Qed.

Lemma fit_transform_inv (X_raw : Pd.DataFrame Q) (sc : Scaler.StandardScaler) (X : Matrix) :
  Scaler.fit_transform X_raw = Ok (sc, X) ->
  Scaler.fit (length (Pd.columns X_raw)) (Pd.rows X_raw) = Ok sc /\
  X = map (Scaler.transform_row sc) (Pd.rows X_raw).
Proof.
  unfold Scaler.fit_transform.
  destruct (Scaler.fit _ _) as [sc'|e]; [|discriminate].
  cbn [bind]. intros [= <- <-]. split; reflexivity.
Qed.

Lemma preprocess_inv (env : Env) (data : Pd.DataFrame Z) (X_raw : Pd.DataFrame Q)
      (pre : Preprocessed) :
  preprocess env data X_raw = Ok pre ->
  Pd.getitem 0 data "Class" = Ok (Y pre) /\
  Scaler.fit_transform X_raw = Ok (scaler pre, X pre) /\
  train_test_split (X pre) (Y pre) (2 # 10) (Some 42) (os_entropy env) (Y pre)
  = Ok (partition pre).
Proof.
  unfold preprocess.
  destruct (Pd.getitem 0 data "Class") as [y|e]; [|discriminate]. cbn [bind].
  destruct (Scaler.fit_transform X_raw) as [[sc x]|e]; [|discriminate]. cbn [bind].
  destruct (train_test_split _ _ _ _ _ _) as [p|e] eqn:Ep; [|discriminate]. cbn [bind].
  intros [= <-]. cbn [Y scaler X partition]. auto.
Qed.

(** A row-count mismatch between the two tables is first noticed by
    [train_test_split]. *)
Lemma preprocess_mismatch (env : Env) (data : Pd.DataFrame Z) (X_raw : Pd.DataFrame Q) :
  Pd.len data <> Pd.len X_raw ->
  exists e, preprocess env data X_raw = Raise e /\ forall c, e <> SystemExit c.
Proof.
  intros Hne. unfold preprocess.
  destruct (Pd.getitem 0 data "Class") as [y|e] eqn:Ey; cbn [bind].
  2:{ exists e. split; [reflexivity|].
      unfold Pd.getitem in Ey. destruct (Pd.index_of _ _); [discriminate|].
      injection Ey as <-. discriminate. }
  apply getitem_length in Ey.
  destruct (Scaler.fit_transform X_raw) as [[sc x]|e] eqn:Ex; cbn [bind].
  2:{ exists e. split; [reflexivity|].
      unfold Scaler.fit_transform in Ex.
      destruct (Scaler.fit _ _) as [sc|e'] eqn:Ef; [discriminate|].
      cbn [bind] in Ex. injection Ex as <-.
      unfold Scaler.fit in Ef.
      destruct (_ <? _)%nat; [injection Ef as <-; discriminate|].
      destruct (_ <? _)%nat; [injection Ef as <-; discriminate|discriminate]. }
  apply fit_transform_inv in Ex. destruct Ex as (_ & ->).
  unfold train_test_split. rewrite length_map, Ey.
  match goal with
  | |- context [(?a =? Pd.len data)%nat] =>
      destruct (Nat.eqb_spec a (Pd.len data)) as [E|E]
  end.
  - exfalso. apply Hne. symmetry. exact E.
  - cbn [andb negb bind]. eexists. split; [reflexivity|discriminate].
Qed.



End Pipeline.

(** C1, as the script has it: the data loader ends the process with exit
    code 1 exactly when one of the two files is missing.  It does not compare
    row counts: two present tables are passed on unchanged, so the label
    vector has as many rows as the feature table exactly when the files do.
    With different row counts the run still aborts with exit code 1, but in
    preprocessing, by an exception that is not the loader's. *)
Theorem load_data_fatal_iff_missing `{Sklearn} (env : Script.Env) :
  (Script.load_data env = Raise (SystemExit 1)
   <-> Script.dataset_part_2 env = None \/ Script.dataset_part_3 env = None) /\
  (Script.dataset_part_2 env = None \/ Script.dataset_part_3 env = None ->
   Script.main env = Raise (SystemExit 1) /\ exit_code (Script.main env) = 1) /\
  (forall data X_raw,
      Script.dataset_part_2 env = Some data ->
      Script.dataset_part_3 env = Some X_raw ->
      Script.load_data env = Ok (data, X_raw) /\
      (forall y, Pd.getitem 0 data "Class" = Ok y ->
                 (length y = Pd.len X_raw <-> Pd.len data = Pd.len X_raw)) /\
      (Pd.len data <> Pd.len X_raw ->
       exists e, Script.main env = Raise e /\ (forall c, e <> SystemExit c) /\
                 exit_code (Script.main env) = 1)).
Proof.
  pose proof (load_data_cases env) as Hload.
  split; [|split].
  - destruct (Script.dataset_part_2 env), (Script.dataset_part_3 env);
      rewrite Hload; split; intros Hx; try reflexivity; auto; try discriminate;
      destruct Hx; discriminate.
  - intros Hmiss.
    assert (Script.load_data env = Raise (SystemExit 1)) as E.
    { destruct (Script.dataset_part_2 env), (Script.dataset_part_3 env);
        try exact Hload; destruct Hmiss; discriminate. }
    unfold Script.main. rewrite E. split; reflexivity.
  - intros data X_raw E2 E3. rewrite E2, E3 in Hload. split; [exact Hload|]. split.
    + intros y Hy. apply getitem_length in Hy. rewrite Hy. tauto.
    + intros Hne. destruct (preprocess_mismatch env data X_raw Hne) as (e & Hpre & Hexit).
      exists e. unfold Script.main. rewrite Hload. cbn [bind]. rewrite Hpre. cbn [bind].
      repeat split; [exact Hexit|].
      destruct e; try reflexivity. exfalso. eapply Hexit. reflexivity.
Qed.

(** C1 as stated fails: with both files present and different row counts
    the loader returns normally. *)
Lemma load_data_accepts_mismatched_rows :
  exists data X_raw,
    Script.dataset_part_2 Sample.mismatched_env = Some data /\
    Script.dataset_part_3 Sample.mismatched_env = Some X_raw /\
    Pd.len data <> Pd.len X_raw /\
    Script.load_data Sample.mismatched_env = Ok (data, X_raw) /\
    exit_code (Script.load_data Sample.mismatched_env) = 0.
Proof.
  eexists. eexists. repeat split; try reflexivity. vm_compute. discriminate.
Qed.

(** ** Probability metrics and the comparison table *)

Section ProbabilityMetrics.
Import Metrics Split Search Script.
Context `{Sklearn}.



End ProbabilityMetrics.





(** ** Python's [max] *)

Lemma Ok_inj {A} (a b : A) : Ok a = Ok b -> a = b.
Proof. intros [= E]. exact E. Qed.






(** ** The detailed-results file *)

Section DetailedResults.
Import Metrics Script.




End DetailedResults.



(** ** Grid search *)

Section GridSearch.
Import Search.












End GridSearch.


(** ** Shuffling: the generator only permutes *)

Section Shuffle.
Import Random.
Context `{Sklearn}.

Lemma set_nth_app {A} (l1 : list A) (a b : A) (r : list A) :
  set_nth (l1 ++ a :: r) (length l1) b = l1 ++ b :: r.
Proof.
  unfold set_nth. rewrite firstn_app, firstn_all, Nat.sub_diag, skipn_app,
    skipn_all, Nat.sub_diag. cbn. rewrite app_nil_r. reflexivity.
Qed.

Lemma swap_lt_Permutation {A} (x : list A) (i j : nat) (a b : A) :
  (i < j)%nat -> nth_error x i = Some a -> nth_error x j = Some b ->
  Permutation (set_nth (set_nth x i b) j a) x /\
  Permutation (set_nth (set_nth x j a) i b) x.
Proof.
  intros Hij Hi Hj.
  destruct (nth_error_split x j Hj) as (m1 & l3 & -> & Hm1).
  rewrite nth_error_app1 in Hi by lia.
  destruct (nth_error_split m1 i Hi) as (l1 & l2 & -> & Hl1).
  subst i j.
  assert (Permutation (l1 ++ b :: l2 ++ a :: l3) ((l1 ++ a :: l2) ++ b :: l3)) as HP.
  { rewrite <- app_assoc. cbn [app]. apply Permutation_app_head.
    transitivity (b :: a :: l2 ++ l3).
    - apply perm_skip. symmetry. apply Permutation_middle.
    - transitivity (a :: b :: l2 ++ l3); [apply perm_swap|].
      apply perm_skip. apply Permutation_middle. }
  assert (set_nth ((l1 ++ a :: l2) ++ b :: l3) (length l1) b = (l1 ++ b :: l2) ++ b :: l3)
    as E1.
  { rewrite <- !app_assoc. cbn [app]. apply set_nth_app. }
  assert (set_nth ((l1 ++ a :: l2) ++ a :: l3) (length l1) b = l1 ++ b :: l2 ++ a :: l3)
    as E2.
  { rewrite <- !app_assoc. cbn [app]. apply set_nth_app. }
  split.
  - rewrite E1.
    replace (length (l1 ++ a :: l2)) with (length (l1 ++ b :: l2))
      by (rewrite !length_app; reflexivity).
    rewrite set_nth_app.
    replace ((l1 ++ b :: l2) ++ a :: l3) with (l1 ++ b :: l2 ++ a :: l3)
      by (rewrite <- app_assoc; reflexivity).
    exact HP.
  - rewrite set_nth_app, E2. exact HP.
Qed.

Lemma swap_Permutation {A} (x : list A) (i j : nat) : Permutation (swap x i j) x.
Proof.
  unfold swap.
  destruct (nth_error x i) as [a|] eqn:Hi; [|reflexivity].
  destruct (nth_error x j) as [b|] eqn:Hj; [|reflexivity].
  destruct (Nat.lt_trichotomy i j) as [Hlt|[->|Hgt]].
  - apply (swap_lt_Permutation x i j a b Hlt Hi Hj).
  - rewrite Hi in Hj. injection Hj as <-.
    destruct (nth_error_split x j Hi) as (l1 & l2 & -> & <-).
    rewrite !set_nth_app. reflexivity.
  - apply (swap_lt_Permutation x j i b a Hgt Hj Hi).
Qed.

Lemma shuffle_from_Permutation {A} (i : nat) (x : list A) (st : RandomState) :
  Permutation (fst (shuffle_from i x st)) x.
Proof.
  revert x st. induction i as [|i IH]; intros x st; cbn [shuffle_from].
  - reflexivity.
  - destruct (rk_interval (S i) st) as [j st1].
    etransitivity; [apply IH|]. apply swap_Permutation.
Qed.

Lemma permutation_range_Permutation (n : nat) (st : RandomState) :
  Permutation (fst (permutation_range n st)) (seq 0 n).
Proof. apply shuffle_from_Permutation. Qed.

Lemma take_rows_seq {A} (pre a : list A) :
  Np.take_rows (pre ++ a) (seq (length pre) (length a)) = a.
Proof.
  revert pre. induction a as [|x a IH]; intros pre; cbn [length seq].
  - reflexivity.
  - unfold Np.take_rows in *. cbn [flat_map].
    rewrite nth_error_app2, Nat.sub_diag by lia. cbn [nth_error app].
    f_equal. specialize (IH (pre ++ [x])).
    rewrite <- app_assoc, length_app, Nat.add_1_r in IH. exact IH.
Qed.

Lemma take_rows_Permutation {A} (a : list A) (idx : list nat) :
  Permutation idx (seq 0 (length a)) -> Permutation (Np.take_rows a idx) a.
Proof.
  intros HP. unfold Np.take_rows. rewrite HP.
  pose proof (take_rows_seq [] a) as E. unfold Np.take_rows in E. cbn in E.
  rewrite E. reflexivity.
Qed.

Lemma take_rows_length {A} (a : list A) (idx : list nat) :
  Forall (fun i => (i < length a)%nat) idx -> length (Np.take_rows a idx) = length idx.
Proof.
  unfold Np.take_rows. induction 1 as [|i idx Hi _ IH]; cbn [flat_map].
  - reflexivity.
  - apply nth_error_Some in Hi. destruct (nth_error a i); [|congruence].
    cbn. rewrite IH. reflexivity.
Qed.

Lemma take_rows_app {A} (a : list A) (idx1 idx2 : list nat) :
  Np.take_rows a (idx1 ++ idx2) = Np.take_rows a idx1 ++ Np.take_rows a idx2.
Proof. unfold Np.take_rows. apply flat_map_app. Qed.

Lemma permutation_Permutation {A} (a : list A) (st : RandomState) :
  Permutation (fst (permutation a st)) a.
Proof.
  unfold permutation.
  pose proof (permutation_range_Permutation (length a) st) as HP.
  destruct (permutation_range (length a) st) as [idx st1]. cbn [fst] in *.
  apply take_rows_Permutation. exact HP.
Qed.

(** [choice] draws [size] distinct elements (all of them when fewer exist). *)
Lemma choice_spec {A} (a : list A) (size : nat) (st : RandomState) :
  NoDup a ->
  let chosen := fst (choice a size st) in
  NoDup chosen /\ incl chosen a /\ length chosen = Nat.min size (length a).
Proof.
  intros Hnd. unfold choice.
  pose proof (permutation_range_Permutation (length a) st) as HP.
  destruct (permutation_range (length a) st) as [idx st1]. cbn [fst] in *.
  pose proof (take_rows_Permutation a idx HP) as Hall.
  rewrite <- (firstn_skipn size idx), take_rows_app in Hall.
  assert (NoDup (Np.take_rows a (firstn size idx) ++ Np.take_rows a (skipn size idx)))
    as Hnd' by (eapply Permutation_NoDup; [symmetry; exact Hall|exact Hnd]).
  split; [apply NoDup_app_remove_r in Hnd'; exact Hnd'|]. split.
  - intros x Hx. eapply Permutation_in; [exact Hall|]. apply in_or_app. left. exact Hx.
  - rewrite take_rows_length.
    + rewrite length_firstn. rewrite (Permutation_length HP), length_seq. reflexivity.
    + apply Forall_forall. intros i Hi.
      assert (In i idx) as Hi' by (rewrite <- (firstn_skipn size idx); apply in_or_app; auto).
      eapply Permutation_in in Hi'; [|exact HP]. apply in_seq in Hi'. lia.
Qed.

End Shuffle.

(** ** Stratified allocation: [_approximate_mode] *)

Section ApproximateMode.
Import Random Split.
Context `{Sklearn}.

Lemma nth_map_in_range {A B} (f : A -> B) (l : list A) (i : nat) (d : A) (d' : B) :
  (i < length l)%nat -> nth i (map f l) d' = f (nth i l d).
Proof.
  intros Hi. rewrite (nth_indep _ d' (f d)) by (rewrite length_map; exact Hi).
  apply map_nth.
Qed.

Lemma increment_at_length (inds : list nat) (floored : list Z) :
  length (increment_at inds floored) = length floored.
Proof.
  unfold increment_at. rewrite length_map, length_combine, length_seq. apply Nat.min_id.
Qed.

Lemma increment_at_nth (inds : list nat) (floored : list Z) (i : nat) :
  (i < length floored)%nat ->
  nth i (increment_at inds floored) 0
  = nth i floored 0 + (if existsb (Nat.eqb i) inds then 1 else 0).
Proof.
  intros Hi. unfold increment_at.
  rewrite (nth_map_in_range _ _ _ (O, 0))
    by (rewrite length_combine, length_seq, Nat.min_id; exact Hi).
  rewrite combine_nth by apply length_seq.
  rewrite seq_nth by exact Hi. cbn [Nat.add].
  destruct (existsb (Nat.eqb i) inds); lia.
Qed.

Lemma sum_conditional_increment (p : nat -> bool) (idx : list nat) (floored : list Z) :
  length idx = length floored ->
  Np.sumZ (map (fun '(i, f) => if p i then f + 1 else f) (combine idx floored))
  = Np.sumZ floored + Z.of_nat (length (filter p idx)).
Proof.
  revert floored. induction idx as [|i idx IH]; intros [|f floored] Hlen;
    try discriminate; cbn [combine map filter Np.sumZ fold_right length].
  - reflexivity.
  - injection Hlen as Hlen. specialize (IH floored Hlen). unfold Np.sumZ in IH.
    rewrite IH. destruct (p i); cbn [length]; lia.
Qed.

Lemma existsb_eqb_In (i : nat) (inds : list nat) :
  existsb (Nat.eqb i) inds = true <-> In i inds.
Proof.
  rewrite existsb_exists. split.
  - intros (x & Hx & E). apply Nat.eqb_eq in E. subst. exact Hx.
  - intros Hi. exists i. split; [exact Hi|apply Nat.eqb_refl].
Qed.

Lemma increment_at_sum (inds : list nat) (floored : list Z) :
  NoDup inds -> (forall i, In i inds -> (i < length floored)%nat) ->
  Np.sumZ (increment_at inds floored) = Np.sumZ floored + Z.of_nat (length inds).
Proof.
  intros Hnd Hrange. unfold increment_at.
  rewrite (sum_conditional_increment (fun i => existsb (Nat.eqb i) inds))
    by apply length_seq.
  f_equal. f_equal. apply Permutation_length. apply NoDup_Permutation.
  - apply NoDup_filter, seq_NoDup.
  - exact Hnd.
  - intros x. rewrite filter_In, in_seq, existsb_eqb_In. split.
    + tauto.
    + intros Hx. specialize (Hrange x Hx). split; [lia|exact Hx].
Qed.

Lemma filter_positions_length {A} (f : A -> bool) (d : A) (l : list A) :
  length (filter (fun i => f (nth i l d)) (seq 0 (length l))) = length (filter f l).
Proof.
  induction l as [|x l IH] using rev_ind.
  - reflexivity.
  - rewrite length_app. cbn [length]. rewrite Nat.add_1_r, seq_S, !filter_app, !length_app.
    cbn [Nat.add filter]. rewrite nth_middle.
    rewrite <- IH. f_equal.
    + f_equal. apply filter_ext_in.
      intros i Hi. apply in_seq in Hi. rewrite app_nth1 by lia. reflexivity.
    + destruct (f x); reflexivity.
Qed.

Lemma where_eq_spec (remainder : list Q) (value : Q) :
  NoDup (where_eq remainder value) /\
  (forall i, In i (where_eq remainder value) <->
             (i < length remainder)%nat /\ (nth i remainder 0 == value)%Q) /\
  length (where_eq remainder value)
  = length (filter (fun x => Qeq_bool x value) remainder).
Proof.
  unfold where_eq. split; [apply NoDup_filter, seq_NoDup|]. split.
  - intros i. rewrite filter_In, in_seq, Qeq_bool_iff. split; intros [? ?]; split; auto; lia.
  - apply (filter_positions_length (fun x => Qeq_bool x value)).
Qed.

Lemma sumQ_nonneg (l : list Q) : (forall x, In x l -> 0 <= x)%Q -> (0 <= Np.sumQ l)%Q.
Proof.
  induction l as [|x l IH]; intros Hall; cbn.
  - apply Qle_refl.
  - assert (0 <= x)%Q by (apply Hall; left; reflexivity).
    assert (0 <= Np.sumQ l)%Q by (apply IH; intros; apply Hall; right; assumption).
    unfold Np.sumQ in *. lra.
Qed.

Lemma sumQ_nonpos (l : list Q) : (forall x, In x l -> x <= 0)%Q -> (Np.sumQ l <= 0)%Q.
Proof.
  induction l as [|x l IH]; intros Hall; cbn.
  - apply Qle_refl.
  - assert (x <= 0)%Q by (apply Hall; left; reflexivity).
    assert (Np.sumQ l <= 0)%Q by (apply IH; intros; apply Hall; right; assumption).
    unfold Np.sumQ in *. lra.
Qed.

(** Taking one value out of the list of values removes at most one unit per
    member of its group from the sum of the selected remainders. *)
Lemma selected_sum_step (value : Q) (rest remainder : list Q) :
  (forall x, In x remainder -> 0 <= x /\ x <= 1)%Q ->
  (Np.sumQ (filter (fun x => existsb (Qeq_bool x) (value :: rest)) remainder)
   <= inject_Z (Z.of_nat (length (filter (fun x => Qeq_bool x value) remainder)))
      + Np.sumQ (filter (fun x => existsb (Qeq_bool x) rest) remainder))%Q.
Proof.
  induction remainder as [|x l IH]; intros Hall.
  - cbn [filter length Np.sumQ fold_right Z.of_nat]. change (inject_Z 0) with 0%Q. lra.
  - assert (0 <= x /\ x <= 1)%Q as [Hx0 Hx1] by (apply Hall; left; reflexivity).
    assert (forall y, In y l -> 0 <= y /\ y <= 1)%Q as Hl
        by (intros; apply Hall; right; assumption).
    specialize (IH Hl). cbn [filter existsb] in *.
    destruct (Qeq_bool x value); cbn [orb].
    + cbn [length]. rewrite Nat2Z.inj_succ. unfold Z.succ. rewrite inject_Z_plus.
      destruct (existsb (Qeq_bool x) rest); cbn [Np.sumQ fold_right] in *;
        unfold Np.sumQ in *; change (inject_Z 1) with 1%Q; lra.
    + destruct (existsb (Qeq_bool x) rest); cbn [Np.sumQ fold_right] in *;
        unfold Np.sumQ in *; lra.
Qed.

End ApproximateMode.

Section AddByRemainder.
Import Random Split.
Context `{Sklearn}.

Lemma filter_none {A} (l : list A) : filter (fun _ => false) l = [].
Proof. induction l; cbn; auto. Qed.

Lemma inject_Z_le_0 (z : Z) : (inject_Z z <= 0)%Q -> z <= 0.
Proof. intros Hz. change 0%Q with (inject_Z 0) in Hz. rewrite <- Zle_Qle in Hz. exact Hz. Qed.

(** The loop hands out exactly [need_to_add] extra draws, at most one per
    class, and only to classes with a positive remainder. *)
Lemma add_by_remainder_spec (values remainder : list Q) :
  forall (floored : list Z) (need : Z) (st : RandomState),
    length floored = length remainder ->
    StronglySorted (fun a b => (b < a)%Q) values ->
    (forall x, In x remainder -> 0 <= x /\ x < 1)%Q ->
    0 < need ->
    (inject_Z need
     <= Np.sumQ (filter (fun x => existsb (Qeq_bool x) values) remainder))%Q ->
    let res := fst (add_by_remainder values remainder floored need st) in
    length res = length floored /\
    Np.sumZ res = Np.sumZ floored + need /\
    forall i, (i < length floored)%nat ->
      nth i res 0 = nth i floored 0 \/
      (nth i res 0 = nth i floored 0 + 1 /\ (0 < nth i remainder 0)%Q /\
       existsb (Qeq_bool (nth i remainder 0%Q)) values = true).
Proof.
  induction values as [|v rest IH]; intros floored need st Hlen Hsorted Hrange Hneed Hbound.
  - exfalso. cbn [existsb] in Hbound. rewrite filter_none in Hbound.
    apply inject_Z_le_0 in Hbound. lia.
  - apply StronglySorted_inv in Hsorted. destruct Hsorted as (Hsorted & Hv).
    rewrite Forall_forall in Hv.
    assert (0 < v)%Q as Hvpos.
    { apply Qnot_le_lt. intros Hle.
      assert (Np.sumQ (filter (fun x => existsb (Qeq_bool x) (v :: rest)) remainder) <= 0)%Q
        as Hs.
      { apply sumQ_nonpos. intros x Hx. apply filter_In in Hx. destruct Hx as (_ & Hx).
        apply existsb_exists in Hx. destruct Hx as (w & Hw & Hxw).
        apply Qeq_bool_iff in Hxw. rewrite Hxw.
        destruct Hw as [<-|Hw]; [exact Hle|].
        specialize (Hv w Hw). cbn in Hv. lra. }
      assert (inject_Z need <= 0)%Q as Hn by lra.
      apply inject_Z_le_0 in Hn. lia. }
    destruct (where_eq_spec remainder v) as (Hnd & Hin & Hcount).
    cbn [add_by_remainder].
    set (inds := where_eq remainder v) in *.
    set (add_now := Z.min (Z.of_nat (length inds)) need).
    pose proof (choice_spec inds (Z.to_nat add_now) st Hnd) as Hc. cbn zeta in Hc.
    destruct (choice inds (Z.to_nat add_now) st) as [chosen st1]. cbn [fst] in Hc.
    destruct Hc as (Hcnd & Hcincl & Hclen).
    assert (Z.of_nat (length chosen) = add_now) as Hcz by (rewrite Hclen; unfold add_now; lia).
    assert (forall i, In i chosen -> (i < length floored)%nat) as Hcrange.
    { intros i Hi. apply Hcincl, Hin in Hi. rewrite Hlen. tauto. }
    pose proof (increment_at_sum chosen floored Hcnd Hcrange) as Hsum1.
    pose proof (increment_at_length chosen floored) as Hlen1.
    assert (forall i, (i < length floored)%nat ->
              nth i (increment_at chosen floored) 0 = nth i floored 0 /\ ~ In i chosen
              \/ nth i (increment_at chosen floored) 0 = nth i floored 0 + 1 /\
                 (nth i remainder 0%Q == v)%Q) as Hpoint1.
    { intros i Hi. rewrite (increment_at_nth chosen floored i Hi).
      destruct (existsb (Nat.eqb i) chosen) eqn:E.
      - right. split; [reflexivity|]. apply existsb_eqb_In in E.
        apply Hcincl, Hin in E. tauto.
      - left. split; [lia|]. intros Hi'. apply existsb_eqb_In in Hi'. congruence. }
    destruct (Z.eqb_spec (need - add_now) 0) as [Hdone|Hmore]; cbn [fst].
    + split; [exact Hlen1|]. split; [lia|].
      intros i Hi. destruct (Hpoint1 i Hi) as [[E _]|[E Hv']]; [left; exact E|].
      right. split; [exact E|]. split; [rewrite Hv'; exact Hvpos|].
      cbn [existsb]. apply Qeq_bool_iff in Hv'. rewrite Hv'. reflexivity.
    + assert (add_now = Z.of_nat (length inds)) as Hall by (unfold add_now in *; lia).
      assert (0 < need - add_now) as Hneed' by (unfold add_now in *; lia).
      assert (inject_Z (need - add_now)
              <= Np.sumQ (filter (fun x => existsb (Qeq_bool x) rest) remainder))%Q
        as Hbound'.
      { pose proof (selected_sum_step v rest remainder) as Hstep.
        assert (forall x, In x remainder -> 0 <= x /\ x <= 1)%Q as Hrange'
            by (intros x Hx; destruct (Hrange x Hx); split; lra).
        specialize (Hstep Hrange'). rewrite <- Hcount in Hstep. fold inds in Hstep.
        rewrite <- Hall in Hstep.
        unfold Z.sub. rewrite inject_Z_plus, inject_Z_opp. lra. }
      rewrite <- Hlen1 in Hlen.
      specialize (IH (increment_at chosen floored) (need - add_now) st1
                     Hlen Hsorted Hrange Hneed' Hbound').
      cbn zeta in IH. destruct IH as (Hlen2 & Hsum2 & Hpoint2).
      split; [lia|]. split; [lia|].
      intros i Hi. rewrite <- Hlen1 in Hi.
      destruct (Hpoint2 i Hi) as [E2|(E2 & Hpos & Hex)]; rewrite Hlen1 in Hi;
        destruct (Hpoint1 i Hi) as [[E1 _]|[E1 Hv']].
      * left. lia.
      * right. split; [lia|]. split; [rewrite Hv'; exact Hvpos|].
        cbn [existsb]. apply Qeq_bool_iff in Hv'. rewrite Hv'. reflexivity.
      * right. split; [lia|]. split; [exact Hpos|].
        cbn [existsb]. rewrite Hex. apply orb_true_r.
      * exfalso. apply existsb_exists in Hex. destruct Hex as (w & Hw & Hxw).
        apply Qeq_bool_iff in Hxw. specialize (Hv w Hw). cbn in Hv. lra.
Qed.

End AddByRemainder.

Section ApproximateModeSpec.
Import Random Split.
Context `{Sklearn}.

Lemma insert_uniqueQ_In (x w : Q) (l : list Q) :
  In w (insert_uniqueQ x l) -> w = x \/ In w l.
Proof.
  induction l as [|y l IH]; cbn [insert_uniqueQ].
  - intros [<-|[]]. left. reflexivity.
  - destruct (Qcompare x y); cbn [In]; intuition.
Qed.

Lemma insert_uniqueQ_sorted (x : Q) (l : list Q) :
  StronglySorted Qlt l -> StronglySorted Qlt (insert_uniqueQ x l).
Proof.
  induction 1 as [|y l Hs IH Hall]; cbn [insert_uniqueQ].
  - repeat constructor.
  - destruct (Qcompare x y) eqn:E.
    + constructor; assumption.
    + apply Qlt_alt in E. constructor; [constructor; assumption|].
      constructor; [exact E|].
      eapply Forall_impl; [|exact Hall]. cbn. intros. lra.
    + apply Qgt_alt in E. constructor; [exact IH|].
      apply Forall_forall. intros w Hw. apply insert_uniqueQ_In in Hw.
      destruct Hw as [->|Hw]; [exact E|].
      rewrite Forall_forall in Hall. auto.
Qed.

Lemma insert_uniqueQ_member (x z : Q) (l : list Q) :
  (z == x)%Q \/ existsb (Qeq_bool z) l = true ->
  existsb (Qeq_bool z) (insert_uniqueQ x l) = true.
Proof.
  induction l as [|y l IH]; cbn [insert_uniqueQ existsb].
  - intros [E|E]; [|discriminate]. apply Qeq_bool_iff in E. rewrite E. reflexivity.
  - destruct (Qcompare x y) eqn:Ec; cbn [existsb].
    + apply Qeq_alt in Ec. intros [E|E]; [|exact E].
      assert (z == y)%Q as E' by (rewrite E; exact Ec).
      apply Qeq_bool_iff in E'. rewrite E'. reflexivity.
    + intros [E|E]; [|rewrite E; apply orb_true_r].
      apply Qeq_bool_iff in E. rewrite E. reflexivity.
    + intros [E|E].
      * rewrite IH by (left; exact E). apply orb_true_r.
      * apply orb_true_iff in E. destruct E as [E|E]; [rewrite E; reflexivity|].
        rewrite IH by (right; exact E). apply orb_true_r.
Qed.

Lemma uniqueQ_sorted (l : list Q) : StronglySorted Qlt (uniqueQ l).
Proof.
  induction l as [|x l IH]; cbn; [constructor|]. apply insert_uniqueQ_sorted, IH.
Qed.

Lemma uniqueQ_member (l : list Q) (z : Q) :
  In z l -> existsb (Qeq_bool z) (uniqueQ l) = true.
Proof.
  induction l as [|x l IH]; intros Hz; [destruct Hz|].
  cbn. fold (uniqueQ l). apply insert_uniqueQ_member.
  destruct Hz as [->|Hz]; [left; reflexivity|right; auto].
Qed.

Lemma strongly_sorted_snoc {A} (R : A -> A -> Prop) (l : list A) (a : A) :
  StronglySorted R l -> (forall x, In x l -> R x a) -> StronglySorted R (l ++ [a]).
Proof.
  induction 1 as [|y l Hs IH Hall]; intros Ha; cbn [app].
  - repeat constructor.
  - constructor.
    + apply IH. intros x Hx. apply Ha. right. exact Hx.
    + apply Forall_app. split; [exact Hall|].
      constructor; [|constructor]. apply Ha. left. reflexivity.
Qed.

Lemma strongly_sorted_rev {A} (R : A -> A -> Prop) (l : list A) :
  StronglySorted R l -> StronglySorted (fun a b => R b a) (rev l).
Proof.
  induction 1 as [|y l Hs IH Hall]; cbn [rev].
  - constructor.
  - apply strongly_sorted_snoc; [exact IH|].
    intros x Hx. apply in_rev in Hx. rewrite Forall_forall in Hall. auto.
Qed.

Lemma existsb_rev {A} (f : A -> bool) (l : list A) : existsb f (rev l) = existsb f l.
Proof.
  destruct (existsb f l) eqn:E.
  - apply existsb_exists in E. destruct E as (x & Hx & Hf).
    apply existsb_exists. exists x. split; [apply in_rev in Hx; exact Hx|exact Hf].
  - destruct (existsb f (rev l)) eqn:E'; [|reflexivity].
    apply existsb_exists in E'. destruct E' as (x & Hx & Hf).
    apply in_rev in Hx.
    assert (existsb f l = true) by (apply existsb_exists; eauto). congruence.
Qed.

Lemma filter_all {A} (f : A -> bool) (l : list A) :
  (forall x, In x l -> f x = true) -> filter f l = l.
Proof.
  induction l as [|x l IH]; intros Hall; cbn; [reflexivity|].
  rewrite (Hall x (or_introl eq_refl)), IH; [reflexivity|].
  intros; apply Hall; right; assumption.
Qed.

Lemma sumZ_nonneg (l : list Z) : (forall x, In x l -> 0 <= x) -> 0 <= Np.sumZ l.
Proof.
  induction l as [|x l IH]; intros Hall; cbn; [lia|].
  assert (0 <= x) by (apply Hall; left; reflexivity).
  assert (0 <= Np.sumZ l) by (apply IH; intros; apply Hall; right; assumption).
  unfold Np.sumZ in *. lia.
Qed.

Lemma sumZ_member_le (counts : list Z) (c : Z) :
  (forall x, In x counts -> 0 <= x) -> In c counts -> c <= Np.sumZ counts.
Proof.
  induction counts as [|x l IH]; intros Hall Hc; [destruct Hc|].
  cbn. assert (0 <= x) by (apply Hall; left; reflexivity).
  assert (forall y, In y l -> 0 <= y) as Hl by (intros; apply Hall; right; assumption).
  pose proof (sumZ_nonneg l Hl) as Hs.
  destruct Hc as [->|Hc].
  - unfold Np.sumZ in *. lia.
  - specialize (IH Hl Hc). unfold Np.sumZ in *. lia.
Qed.

Lemma sumQ_shares (total n_draws : Z) (counts : list Z) :
  (Np.sumQ (map (fun c => inject_Z c / inject_Z total * inject_Z n_draws) counts)
   == inject_Z (Np.sumZ counts) / inject_Z total * inject_Z n_draws)%Q.
Proof.
  induction counts as [|c l IH]; cbn.
  - unfold Qdiv. ring.
  - unfold Np.sumQ, Np.sumZ in *. rewrite IH, inject_Z_plus. unfold Qdiv. ring.
Qed.

Lemma sumQ_remainders (cont : list Q) :
  (Np.sumQ (map (fun x => x - inject_Z (Qfloor x)) cont)
   == Np.sumQ cont - inject_Z (Np.sumZ (map Qfloor cont)))%Q.
Proof.
  induction cont as [|x l IH]; cbn.
  - ring.
  - unfold Np.sumQ, Np.sumZ in *. rewrite IH, inject_Z_plus. ring.
Qed.

Lemma share_bounds (c total d : Z) :
  0 <= c -> c <= total -> 0 <= d <= total ->
  (0 <= inject_Z c / inject_Z total * inject_Z d
   /\ inject_Z c / inject_Z total * inject_Z d <= inject_Z c)%Q.
Proof.
  intros Hc Hct Hd.
  assert (0 <= inject_Z c)%Q as Hc' by (change 0%Q with (inject_Z 0); rewrite <- Zle_Qle; lia).
  destruct (Z.eq_dec total 0) as [->|Hnz].
  - assert (c = 0) by lia. subst c.
    assert (inject_Z 0 / inject_Z 0 * inject_Z d == 0)%Q as E
        by (change (inject_Z 0) with 0%Q; unfold Qdiv; ring).
    rewrite E. change (inject_Z 0) with 0%Q. split; apply Qle_refl.
  - assert (0 < inject_Z total)%Q as Ht
        by (change 0%Q with (inject_Z 0); rewrite <- Zlt_Qlt; lia).
    assert (0 <= inject_Z d / inject_Z total /\ inject_Z d / inject_Z total <= 1)%Q
      as [Hr0 Hr1].
    { split.
      - apply Qle_shift_div_l; [exact Ht|]. rewrite Qmult_0_l.
        change 0%Q with (inject_Z 0). rewrite <- Zle_Qle. lia.
      - apply Qle_shift_div_r; [exact Ht|]. rewrite Qmult_1_l. rewrite <- Zle_Qle. lia. }
    assert (inject_Z c / inject_Z total * inject_Z d
            == inject_Z c * (inject_Z d / inject_Z total))%Q as E
        by (field; intros E0; rewrite E0 in Ht; apply (Qlt_irrefl 0); exact Ht).
    rewrite E. split.
    + apply Qmult_le_0_compat; assumption.
    + rewrite <- (Qmult_1_r (inject_Z c)) at 2.
      apply Qmult_le_compat_nonneg; split; assumption || apply Qle_refl.
Qed.

End ApproximateModeSpec.

Section Allocation.
Import Random Split.
Context `{Sklearn}.

(** [_approximate_mode] distributes all [n_draws] draws and gives no class
    more than it has. *)
Lemma approximate_mode_spec (class_counts : list Z) (n_draws : Z) (st : RandomState) :
  (forall c, In c class_counts -> 0 <= c) ->
  0 <= n_draws <= Np.sumZ class_counts ->
  let res := fst (approximate_mode class_counts n_draws st) in
  length res = length class_counts /\
  Np.sumZ res = n_draws /\
  forall i, (i < length class_counts)%nat ->
            0 <= nth i res 0 <= nth i class_counts 0.
Proof.
  intros Hnonneg Hdraws. unfold approximate_mode.
  set (total := Np.sumZ class_counts) in *.
  set (share := fun c => (inject_Z c / inject_Z total * inject_Z n_draws)%Q).
  set (cont := map share class_counts).
  set (floored := map Qfloor cont).
  set (remainder := map (fun x => (x - inject_Z (Qfloor x))%Q) cont).
  set (need := n_draws - Np.sumZ floored).
  assert (length cont = length class_counts) as Lc by apply length_map.
  assert (length floored = length class_counts) as Lf
      by (unfold floored; rewrite length_map; exact Lc).
  assert (length remainder = length class_counts) as Lr
      by (unfold remainder; rewrite length_map; exact Lc).
  assert (forall i, (i < length class_counts)%nat ->
            (0 <= nth i cont 0 /\ nth i cont 0 <= inject_Z (nth i class_counts 0%Z))%Q)
    as Hcont.
  { intros i Hi. unfold cont. rewrite (nth_map_in_range share _ _ 0%Z) by exact Hi.
    assert (In (nth i class_counts 0) class_counts) as Hin by (apply nth_In; exact Hi).
    apply share_bounds; [auto | apply sumZ_member_le; auto | exact Hdraws]. }
  assert (forall i, (i < length class_counts)%nat ->
            nth i floored 0 = Qfloor (nth i cont 0%Q)) as Hfl.
  { intros i Hi. unfold floored. apply nth_map_in_range. rewrite Lc. exact Hi. }
  assert (forall i, (i < length class_counts)%nat ->
            0 <= nth i floored 0 <= nth i class_counts 0) as Hflb.
  { intros i Hi. rewrite (Hfl i Hi). destruct (Hcont i Hi) as [H0 H1]. split.
    - change 0 with (Qfloor 0). apply Qfloor_resp_le. exact H0.
    - rewrite <- (Qfloor_Z (nth i class_counts 0)). apply Qfloor_resp_le. exact H1. }
  assert (Np.sumQ cont == inject_Z n_draws)%Q as Hsum.
  { unfold cont, share. rewrite sumQ_shares. fold total.
    destruct (Z.eq_dec total 0) as [E|Hnz].
    - assert (n_draws = 0) by lia. subst n_draws. change (inject_Z 0) with 0%Q. ring.
    - field. intros E0. apply Hnz. apply inject_Z_injective. exact E0. }
  assert (inject_Z need == Np.sumQ remainder)%Q as Hneed.
  { unfold remainder, need. rewrite sumQ_remainders, Hsum. fold floored.
    unfold Z.sub. rewrite inject_Z_plus, inject_Z_opp. ring. }
  assert (forall x, In x remainder -> 0 <= x /\ x < 1)%Q as Hrange.
  { intros x Hx. unfold remainder in Hx. apply in_map_iff in Hx.
    destruct Hx as (c & <- & _). pose proof (Qfloor_le c). pose proof (Qlt_floor c).
    rewrite inject_Z_plus in *. change (inject_Z 1) with 1%Q in *. split; lra. }
  assert (0 <= need) as Hneed0.
  { assert (0 <= Np.sumQ remainder)%Q as Hs
        by (apply sumQ_nonneg; intros x Hx; apply Hrange; exact Hx).
    rewrite <- Hneed in Hs. change 0%Q with (inject_Z 0) in Hs.
    rewrite <- Zle_Qle in Hs. exact Hs. }
  destruct (Z.ltb_spec 0 need) as [Hpos|Hzero]; cbn zeta.
  - pose proof (add_by_remainder_spec (rev (uniqueQ remainder)) remainder floored need st)
      as Hloop.
    assert (length floored = length remainder) as Hlen by congruence.
    assert (StronglySorted (fun a b => (b < a)%Q) (rev (uniqueQ remainder))) as Hsorted
        by (apply strongly_sorted_rev, uniqueQ_sorted).
    assert (inject_Z need
            <= Np.sumQ (filter (fun x => existsb (Qeq_bool x) (rev (uniqueQ remainder)))
                               remainder))%Q as Hbound.
    { rewrite filter_all; [rewrite Hneed; apply Qle_refl|].
      intros x Hx. rewrite existsb_rev. apply uniqueQ_member. exact Hx. }
    specialize (Hloop Hlen Hsorted Hrange Hpos Hbound). cbn zeta in Hloop.
    destruct Hloop as (Hlen' & Hsum' & Hpoint).
    split; [congruence|]. split; [unfold need in *; lia|].
    intros i Hi. rewrite <- Lf in Hi.
    destruct (Hpoint i Hi) as [E|(E & Hrem & _)]; rewrite E; rewrite Lf in Hi.
    + apply Hflb. exact Hi.
    + destruct (Hflb i Hi) as [H0 H1]. split; [lia|].
      unfold remainder in Hrem.
      rewrite (nth_map_in_range _ _ _ 0%Q) in Hrem by (rewrite Lc; exact Hi).
      destruct (Hcont i Hi) as [_ Hc1]. rewrite <- (Hfl i Hi) in Hrem.
      assert (inject_Z (nth i floored 0%Z) < inject_Z (nth i class_counts 0%Z))%Q
        as Hlt by lra.
      rewrite <- Zlt_Qlt in Hlt. lia.
  - cbn [fst]. split; [exact Lf|]. split; [unfold need in *; lia|]. exact Hflb.
Qed.

(** When as many draws are asked for as there are samples, every class
    gives all it has. *)
Lemma approximate_mode_all (class_counts : list Z) (st : RandomState) :
  (forall c, In c class_counts -> 0 <= c) ->
  fst (approximate_mode class_counts (Np.sumZ class_counts) st) = class_counts.
Proof.
  intros Hnonneg.
  pose proof (approximate_mode_spec class_counts (Np.sumZ class_counts) st Hnonneg) as Hspec.
  pose proof (sumZ_nonneg class_counts Hnonneg) as Hs.
  assert (0 <= Np.sumZ class_counts <= Np.sumZ class_counts) as Hd by lia.
  specialize (Hspec Hd). cbn zeta in Hspec.
  set (res := fst (approximate_mode class_counts (Np.sumZ class_counts) st)) in *.
  destruct Hspec as (Hlen & Hsum & Hpoint).
  clearbody res. clear Hd Hs Hnonneg.
  revert res Hlen Hsum Hpoint.
  induction class_counts as [|c l IH]; intros [|r res] Hlen Hsum Hpoint; try discriminate.
  - reflexivity.
  - injection Hlen as Hlen.
    assert (forall i, (i < length l)%nat -> 0 <= nth i res 0 <= nth i l 0) as Hpoint'
        by (intros i Hi; apply (Hpoint (S i)); cbn; lia).
    assert (0 <= r <= c) as Hr by (apply (Hpoint O); cbn; lia).
    assert (Np.sumZ res <= Np.sumZ l) as Hle.
    { clear - Hlen Hpoint'. revert res Hlen Hpoint'.
      induction l as [|c l IH]; intros [|r res] Hlen Hpoint; try discriminate; cbn.
      injection Hlen as Hlen.
      assert (0 <= r <= c) by (apply (Hpoint O); cbn; lia).
      assert (Np.sumZ res <= Np.sumZ l)
        by (apply IH; [exact Hlen|]; intros i Hi; apply (Hpoint (S i)); cbn; lia).
      unfold Np.sumZ in *. lia. }
    cbn in Hsum. unfold Np.sumZ in *.
    assert (r = c) by lia. subst r. f_equal.
    apply IH; [exact Hlen| lia | exact Hpoint'].
Qed.

End Allocation.

(** ** The stratified split is a partition of the sample positions *)

Section StratifiedSplit.
Import Random Split.
Context `{Sklearn}.

Lemma count_occ_filter (y : Labels) (c : Z) :
  count_occ Z.eq_dec y c = length (filter (fun x => x =? c) y).
Proof.
  induction y as [|x y IH]; cbn [count_occ filter]; [reflexivity|].
  destruct (Z.eq_dec x c) as [->|Hne].
  - rewrite Z.eqb_refl. cbn. rewrite IH. reflexivity.
  - replace (x =? c) with false by (symmetry; apply Z.eqb_neq; exact Hne). exact IH.
Qed.

Lemma class_indices_lengths (y : Labels) (classes : list Z) :
  map (fun l => Z.of_nat (length l)) (class_indices y classes)
  = class_counts_of y classes.
Proof.
  unfold class_indices, class_counts_of. rewrite map_map. apply map_ext.
  intros c. rewrite (filter_positions_length (fun x => x =? c) 0 y), count_occ_filter.
  reflexivity.
Qed.

Lemma keep_drop_Permutation {A} (keep : A -> bool) (xs : list A) :
  Permutation (filter keep xs ++ filter (fun x => negb (keep x)) xs) xs.
Proof.
  induction xs as [|x xs IHxs]; cbn [filter].
  - apply perm_nil.
  - destruct (keep x) eqn:Ek; cbn [negb app].
    + constructor. exact IHxs.
    + symmetry. apply Permutation_cons_app. symmetry. exact IHxs.
Qed.

Lemma group_by_Permutation (lab : nat -> Z) (cs : list Z) :
  NoDup cs ->
  forall l, (forall i, In i l -> In (lab i) cs) ->
            Permutation (concat (map (fun c => filter (fun i => lab i =? c) l) cs)) l.
Proof.
  induction 1 as [|c cs Hc Hnd IH]; intros l Hall.
  - destruct l as [|i l]; [constructor|]. destruct (Hall i (or_introl eq_refl)).
  - cbn [map concat].
    etransitivity; [|apply (keep_drop_Permutation (fun i => lab i =? c) l)].
    apply Permutation_app_head.
    set (l' := filter (fun a => negb (lab a =? c)) l).
    rewrite <- (IH l').
    + apply Permutation_refl'. f_equal. apply map_ext_in. intros c' Hc'.
      unfold l'. clear - Hc Hc'. induction l as [|i l IHl]; cbn [filter]; [reflexivity|].
      destruct (Z.eqb_spec (lab i) c') as [E|E]; destruct (Z.eqb_spec (lab i) c) as [E'|E'];
        cbn [negb filter].
      * exfalso. apply Hc. rewrite <- E', E. exact Hc'.
      * apply Z.eqb_eq in E. rewrite E. f_equal. exact IHl.
      * exact IHl.
      * apply Z.eqb_neq in E. rewrite E. exact IHl.
    + intros i Hi. unfold l' in Hi. apply filter_In in Hi. destruct Hi as (Hi & Hne).
      destruct (Hall i Hi) as [E|Hin]; [|exact Hin].
      rewrite <- E, Z.eqb_refl in Hne. discriminate.
Qed.

Lemma class_indices_Permutation (y : Labels) :
  Permutation (concat (class_indices y (Np.unique y))) (seq 0 (length y)).
Proof.
  unfold class_indices. apply (group_by_Permutation (fun i => nth i y 0)).
  - apply unique_NoDup.
  - intros i Hi. apply in_seq in Hi. apply unique_In. apply nth_In. lia.
Qed.

Lemma sumZ_lengths {A} (ls : list (list A)) :
  Np.sumZ (map (fun l => Z.of_nat (length l)) ls) = Z.of_nat (length (concat ls)).
Proof.
  induction ls as [|l ls IH]; cbn; [reflexivity|].
  unfold Np.sumZ in *. rewrite IH, length_app. lia.
Qed.

Lemma class_counts_sum (y : Labels) :
  Np.sumZ (class_counts_of y (Np.unique y)) = Z.of_nat (length y).
Proof.
  rewrite <- class_indices_lengths, sumZ_lengths.
  rewrite (Permutation_length (class_indices_Permutation y)), length_seq. reflexivity.
Qed.

Lemma sumZ_differences (a b : list Z) :
  length a = length b ->
  Np.sumZ (map (fun '(c, n) => c - n) (combine a b)) = Np.sumZ a - Np.sumZ b.
Proof.
  revert b. induction a as [|x a IH]; intros [|z b] Hlen; try discriminate; cbn.
  - reflexivity.
  - injection Hlen as Hlen. specialize (IH b Hlen). unfold Np.sumZ in *. lia.
Qed.

Lemma Forall2_of_nth {A B} (R : A -> B -> Prop) (da : A) (db : B) (la : list A) (lb : list B) :
  length la = length lb ->
  (forall i, (i < length la)%nat -> R (nth i la da) (nth i lb db)) ->
  Forall2 R la lb.
Proof.
  revert lb. induction la as [|a la IH]; intros [|b lb] Hlen Hnth; try discriminate.
  - constructor.
  - injection Hlen as Hlen. constructor.
    + apply (Hnth O). cbn. lia.
    + apply IH; [exact Hlen|]. intros i Hi. apply (Hnth (S i)). cbn. lia.
Qed.

Lemma app_pairs_Permutation {A} (a b c d : list A) :
  Permutation ((a ++ b) ++ (c ++ d)) ((a ++ c) ++ (b ++ d)).
Proof.
  rewrite <- !app_assoc. apply Permutation_app_head.
  rewrite !app_assoc. apply Permutation_app_tail. apply Permutation_app_comm.
Qed.

(** Each class gives its first [n] permuted positions to train and all the
    others to test. *)
Lemma draw_classes_spec (cls : list (list nat)) (n_i : list Z) :
  Forall2 (fun c n => 0 <= n <= Z.of_nat (length c)) cls n_i ->
  forall st,
    let t_i := map (fun '(c, n) => c - n)
                   (combine (map (fun l => Z.of_nat (length l)) cls) n_i) in
    let drawn := fst (draw_classes cls n_i t_i st) in
    Permutation (fst drawn ++ snd drawn) (concat cls) /\
    Z.of_nat (length (fst drawn)) = Np.sumZ n_i /\
    Z.of_nat (length (snd drawn)) = Np.sumZ t_i.
Proof.
  induction 1 as [|c n cls n_i Hn Hrest IH]; intros st.
  - cbn. repeat split; constructor.
  - cbn [map combine draw_classes].
    pose proof (permutation_range_Permutation (length c) st) as HP.
    destruct (permutation_range (length c) st) as [perm st1]. cbn [fst] in HP.
    pose proof (take_rows_Permutation c perm HP) as Hpi.
    set (pi := Np.take_rows c perm) in *.
    specialize (IH st1). cbn zeta in IH.
    destruct (draw_classes cls n_i _ st1) as [[train test] st2]. cbn [fst snd] in *.
    destruct IH as (IHP & IHtrain & IHtest).
    assert (length pi = length c) as Lpi by (apply Permutation_length; exact Hpi).
    assert (firstn (Z.to_nat (Z.of_nat (length c) - n)) (skipn (Z.to_nat n) pi)
            = skipn (Z.to_nat n) pi) as Etest.
    { apply firstn_all2. rewrite length_skipn. lia. }
    rewrite Etest. split; [|split].
    + etransitivity; [apply app_pairs_Permutation|].
      rewrite firstn_skipn. cbn [concat]. apply Permutation_app; assumption.
    + rewrite length_app, length_firstn. cbn. unfold Np.sumZ in *. lia.
    + rewrite length_app, length_skipn. cbn. unfold Np.sumZ in *. lia.
Qed.

(** A successful stratified shuffle returns a partition of the positions
    with the requested part sizes. *)
Lemma stratified_shuffle_split_spec (n_train n_test : Z) (random_state : option Z)
      (os_entropy : Z) (y : Labels) (train test : list nat) :
  stratified_shuffle_split n_train n_test random_state os_entropy y = Ok (train, test) ->
  0 <= n_train -> 0 <= n_test -> n_train + n_test = Z.of_nat (length y) ->
  Permutation (train ++ test) (seq 0 (length y)) /\
  Z.of_nat (length train) = n_train /\
  Z.of_nat (length test) = n_test.
Proof.
  unfold stratified_shuffle_split. intros Hsplit Htrain Htest Htotal.
  destruct (minimum _) as [least|]; [|discriminate].
  destruct (least <? 2); [discriminate|].
  destruct (n_train <? _); [discriminate|].
  destruct (n_test <? _); [discriminate|].
  set (counts := class_counts_of y (Np.unique y)) in *.
  set (cls := class_indices y (Np.unique y)) in *.
  set (rng := check_random_state random_state os_entropy) in *.
  assert (forall c, In c counts -> 0 <= c) as Hnonneg.
  { intros c Hc. unfold counts, class_counts_of in Hc. apply in_map_iff in Hc.
    destruct Hc as (? & <- & _). lia. }
  assert (Np.sumZ counts = Z.of_nat (length y)) as Hsum by apply class_counts_sum.
  assert (map (fun l => Z.of_nat (length l)) cls = counts) as Hlens
      by apply class_indices_lengths.
  pose proof (approximate_mode_spec counts n_train rng Hnonneg) as Hmode.
  assert (0 <= n_train <= Np.sumZ counts) as Hd by lia.
  specialize (Hmode Hd). cbn zeta in Hmode.
  destruct (approximate_mode counts n_train rng) as [n_i rng1]. cbn [fst] in Hmode.
  destruct Hmode as (Hlen & Hsum_n & Hpoint).
  set (remaining := map (fun '(c, n) => c - n) (combine counts n_i)) in *.
  assert (Np.sumZ remaining = n_test) as Hrem.
  { unfold remaining. rewrite sumZ_differences by congruence. lia. }
  assert (forall c, In c remaining -> 0 <= c) as Hrem_nonneg.
  { intros c Hc. apply (In_nth _ _ 0) in Hc. destruct Hc as (i & Hi & <-).
    unfold remaining in *. rewrite length_map, length_combine, Hlen, Nat.min_id in Hi.
    rewrite (nth_map_in_range _ _ _ (0, 0))
      by (rewrite length_combine, Hlen, Nat.min_id; exact Hi).
    rewrite combine_nth by congruence. specialize (Hpoint i Hi). lia. }
  pose proof (approximate_mode_all remaining rng1 Hrem_nonneg) as Hall.
  rewrite Hrem in Hall.
  destruct (approximate_mode remaining n_test rng1) as [t_i rng2]. cbn [fst] in Hall.
  subst t_i.
  assert (Forall2 (fun c n => 0 <= n <= Z.of_nat (length c)) cls n_i) as Hf2.
  { apply (Forall2_of_nth _ [] 0).
    - rewrite <- (length_map (fun l => Z.of_nat (length l)) cls), Hlens. congruence.
    - intros i Hi.
      assert (i < length counts)%nat as Hi'
          by (rewrite <- Hlens, length_map; exact Hi).
      specialize (Hpoint i Hi').
      rewrite <- Hlens in Hpoint.
      rewrite (nth_map_in_range _ _ _ []) in Hpoint by exact Hi. exact Hpoint. }
  pose proof (draw_classes_spec cls n_i Hf2 rng2) as Hdraw. cbn zeta in Hdraw.
  rewrite Hlens in Hdraw. fold remaining in Hdraw.
  destruct (draw_classes cls n_i remaining rng2) as [[train0 test0] rng3].
  cbn [fst snd] in Hdraw. destruct Hdraw as (HP & Htr & Hte).
  pose proof (permutation_Permutation train0 rng3) as HPtrain.
  destruct (permutation train0 rng3) as [train1 rng4]. cbn [fst] in HPtrain.
  pose proof (permutation_Permutation test0 rng4) as HPtest.
  destruct (permutation test0 rng4) as [test1 rng5]. cbn [fst] in HPtest.
  injection Hsplit as <- <-.
  split; [|split].
  - rewrite HPtrain, HPtest, HP. apply class_indices_Permutation.
  - rewrite (Permutation_length HPtrain). lia.
  - rewrite (Permutation_length HPtest). lia.
Qed.

End StratifiedSplit.

Section TrainTestSplit.
Import Random Split.
Context `{Sklearn}.

Lemma validate_shuffle_split_spec (n_samples : nat) (test_size : Q) (n_train n_test : Z) :
  validate_shuffle_split n_samples test_size = Ok (n_train, n_test) ->
  (0 < test_size /\ test_size < 1)%Q /\
  n_test = Qceiling (test_size * inject_Z (Z.of_nat n_samples)) /\
  n_train = Z.of_nat n_samples - n_test /\
  0 <= n_test /\ 0 < n_train.
Proof.
  unfold validate_shuffle_split.
  destruct (Qle_bool test_size 0) eqn:E0; [discriminate|].
  destruct (Qle_bool 1 test_size) eqn:E1; [discriminate|]. cbn [orb].
  destruct (Z.eqb_spec (Z.of_nat n_samples
                        - Qceiling (test_size * inject_Z (Z.of_nat n_samples))) 0)
    as [|Hne]; [discriminate|].
  intros [= <- <-].
  assert (0 < test_size)%Q as H0.
  { apply Qnot_le_lt. intros Hle. apply Qle_bool_iff in Hle. congruence. }
  assert (test_size < 1)%Q as H1.
  { apply Qnot_le_lt. intros Hle. apply Qle_bool_iff in Hle. congruence. }
  assert (0 <= inject_Z (Z.of_nat n_samples))%Q as Hn
      by (change 0%Q with (inject_Z 0); rewrite <- Zle_Qle; lia).
  set (n := inject_Z (Z.of_nat n_samples)) in *.
  assert (0 <= test_size * n)%Q as Hlo by (apply Qmult_le_0_compat; lra).
  assert (test_size * n <= n)%Q as Hhi.
  { rewrite <- (Qmult_1_l n) at 2. apply Qmult_le_compat_r; lra. }
  apply Qceiling_resp_le in Hlo, Hhi.
  change (Qceiling 0) with 0 in Hlo. unfold n in Hhi at 2. rewrite Qceiling_Z in Hhi.
  repeat split; try assumption; lia.
Qed.

(** What a successful [train_test_split] returns. *)
Lemma train_test_split_spec (X : Matrix) (Y : Labels) (test_size : Q)
      (random_state : option Z) (os_entropy : Z) (stratify : Labels) (p : Partition) :
  train_test_split X Y test_size random_state os_entropy stratify = Ok p ->
  length Y = length X /\ length stratify = length X /\
  Permutation (train p ++ test p) (seq 0 (length X)) /\
  Z.of_nat (length (test p)) = Qceiling (test_size * inject_Z (Z.of_nat (length X))) /\
  Z.of_nat (length (train p))
  = Z.of_nat (length X) - Qceiling (test_size * inject_Z (Z.of_nat (length X))) /\
  X_train p = Np.take_rows X (train p) /\ X_test p = Np.take_rows X (test p) /\
  Y_train p = Np.take_rows Y (train p) /\ Y_test p = Np.take_rows Y (test p).
Proof.
  unfold train_test_split.
  destruct (Nat.eqb_spec (length X) (length Y)) as [EY|]; [|discriminate].
  destruct (Nat.eqb_spec (length X) (length stratify)) as [ES|]; [|discriminate].
  cbn [andb negb].
  destruct (validate_shuffle_split (length X) test_size) as [[n_train n_test]|e] eqn:Ev;
    [|discriminate]. cbn [bind].
  destruct (stratified_shuffle_split n_train n_test random_state os_entropy stratify)
    as [[tr te]|e] eqn:Es; [|discriminate]. cbn [bind].
  intros [= <-]. cbn [train test X_train X_test Y_train Y_test].
  destruct (validate_shuffle_split_spec _ _ _ _ Ev) as (_ & Hte & Htr & Hte0 & Htr0).
  destruct (stratified_shuffle_split_spec _ _ _ _ _ _ _ Es) as (HP & Ltr & Lte);
    try lia.
  rewrite <- ES in HP. subst n_test n_train.
  repeat split; auto.
Qed.

End TrainTestSplit.

Section SplitSucceeds.
Import Random Split.
Context `{Sklearn}.



End SplitSucceeds.

(** C4: after a successful split the train and test positions together are
    exactly the positions of all samples, each once: the sizes add up to the
    sample count, no sample is in both parts, and every sample is in one of
    them. *)
Theorem split_partitions_all_samples `{Sklearn}
    (X : Matrix) (Y : Labels) (test_size : Q) (random_state : option Z)
    (os_entropy : Z) (p : Split.Partition) :
  Split.train_test_split X Y test_size random_state os_entropy Y = Ok p ->
  (length (Split.train p) + length (Split.test p) = length X)%nat /\
  NoDup (Split.train p ++ Split.test p) /\
  (forall i, In i (Split.train p) -> ~ In i (Split.test p)) /\
  (forall i, (i < length X)%nat <-> In i (Split.train p) \/ In i (Split.test p)) /\
  length (Split.X_train p) = length (Split.train p) /\
  length (Split.Y_train p) = length (Split.train p) /\
  length (Split.X_test p) = length (Split.test p) /\
  length (Split.Y_test p) = length (Split.test p).
Proof.
  intros Hsplit.
  destruct (train_test_split_spec _ _ _ _ _ _ _ Hsplit)
    as (LY & _ & HP & _ & _ & -> & -> & -> & ->).
  assert (NoDup (Split.train p ++ Split.test p)) as Hnd
      by (eapply Permutation_NoDup; [symmetry; exact HP|apply seq_NoDup]).
  assert (forall i, (i < length X)%nat <-> In i (Split.train p) \/ In i (Split.test p))
    as Hcover.
  { intros i. rewrite <- in_app_iff. split.
    - intros Hi. eapply Permutation_in; [symmetry; exact HP|]. apply in_seq. lia.
    - intros Hi. eapply Permutation_in in Hi; [|exact HP]. apply in_seq in Hi. lia. }
  split.
  { rewrite <- length_app, (Permutation_length HP). apply length_seq. }
  split; [exact Hnd|]. split.
  { intros i Hi Hi'. apply in_split in Hi. destruct Hi as (l1 & l2 & E).
    rewrite E, <- app_assoc in Hnd. cbn [app] in Hnd.
    apply NoDup_remove_2 in Hnd. apply Hnd.
    apply in_or_app. right. apply in_or_app. right. exact Hi'. }
  split; [exact Hcover|].
  repeat split; apply take_rows_length; apply Forall_forall; intros i Hi;
    rewrite ?LY; apply Hcover; auto.
Qed.

Lemma split_partitions_all_samples_witness :
  exists p,
    Split.train_test_split (H := Sample.sample_library)
      Sample.ninety_features Sample.ninety_labels (2 # 10) (Some 42) 0 Sample.ninety_labels
    = Ok p /\
    (length (Split.train p) + length (Split.test p) = 90)%nat /\
    NoDup (Split.train p ++ Split.test p).
Proof.
  assert (is_ok (Split.train_test_split (H := Sample.sample_library)
                   Sample.ninety_features Sample.ninety_labels (2 # 10) (Some 42) 0
                   Sample.ninety_labels) = true) as Hok by (vm_compute; reflexivity).
  destruct (Split.train_test_split (H := Sample.sample_library)
              Sample.ninety_features Sample.ninety_labels (2 # 10) (Some 42) 0
              Sample.ninety_labels) as [p|e] eqn:E; [|discriminate].
  exists p. split; [reflexivity|].
  destruct (split_partitions_all_samples (H := Sample.sample_library) _ _ _ _ _ _ E)
    as (Hsize & Hnd & _).
  split; [exact Hsize|exact Hnd].
Defined.



(** ** Two runs on the same files *)

Section Determinism.
Import Split Script.
Context `{Sklearn}.




End Determinism.



(** * Further properties *)

(** ** Rows and labels stay together *)

Section PartitionRows.
Import Split.
Context `{Sklearn}.

Lemma split_positions_in_range (X : Matrix) (Y : Labels) (test_size : Q)
      (random_state : option Z) (os_entropy : Z) (stratify : Labels) (p : Partition) :
  train_test_split X Y test_size random_state os_entropy stratify = Ok p ->
  Forall (fun i => (i < length X)%nat) (train p) /\
  Forall (fun i => (i < length X)%nat) (test p).
Proof.
  intros Hsplit.
  destruct (train_test_split_spec _ _ _ _ _ _ _ Hsplit) as (_ & _ & HP & _).
  split; apply Forall_forall; intros i Hi;
    assert (In i (train p ++ test p)) as Hin by (apply in_or_app; auto);
    eapply Permutation_in in Hin; try exact HP; apply in_seq in Hin; lia.
Qed.

Lemma nth_error_combine {A B} (a : list A) (b : list B) (i : nat) :
  nth_error (combine a b) i
  = match nth_error a i, nth_error b i with
    | Some x, Some y => Some (x, y)
    | _, _ => None
    end.
Proof.
  revert b i. induction a as [|x a IH]; intros [|y b] [|i]; cbn; try reflexivity.
  - destruct (nth_error a i); reflexivity.
  - apply IH.
Qed.

Lemma take_rows_combine {A B} (a : list A) (b : list B) (idx : list nat) :
  length a = length b ->
  Np.take_rows (combine a b) idx = combine (Np.take_rows a idx) (Np.take_rows b idx).
Proof.
  intros Hlen. unfold Np.take_rows.
  induction idx as [|i idx IH]; cbn [flat_map]; [reflexivity|].
  rewrite nth_error_combine, IH.
  destruct (nth_error a i) as [x|] eqn:Ea, (nth_error b i) as [y|] eqn:Eb;
    cbn [app combine]; try reflexivity.
  - exfalso. apply nth_error_None in Eb.
    assert (i < length a)%nat by (apply nth_error_Some; congruence). lia.
  - exfalso. apply nth_error_None in Ea.
    assert (i < length b)%nat by (apply nth_error_Some; congruence). lia.
Qed.

Lemma ceiling_of_a_fifth (n : nat) :
  Qceiling ((2 # 10) * inject_Z (Z.of_nat n)) = Z.of_nat ((n + 4) / 5).
Proof.
  rewrite Nat2Z.inj_div, Nat2Z.inj_add.
  unfold Qceiling, Qfloor, Qopp, Qmult, inject_Z. cbn [Qnum Qden Pos.mul].
  change (Z.of_nat 4) with 4. change (Z.of_nat 5) with 5.
  Z.div_mod_to_equations. lia.
Qed.

End PartitionRows.

(** X1: the split keeps every row with its own label.  The train features
    paired with the train labels are the (row, label) pairs of the input at
    the train positions, likewise for the test part, and the pairs of both
    parts together are a rearrangement of the pairs of the input: no pair
    is lost, repeated or mixed up. *)
Theorem split_keeps_rows_with_labels `{Sklearn}
    (X : Matrix) (Y : Labels) (test_size : Q) (random_state : option Z)
    (os_entropy : Z) (p : Split.Partition) :
  Split.train_test_split X Y test_size random_state os_entropy Y = Ok p ->
  combine (Split.X_train p) (Split.Y_train p)
  = Np.take_rows (combine X Y) (Split.train p) /\
  combine (Split.X_test p) (Split.Y_test p)
  = Np.take_rows (combine X Y) (Split.test p) /\
  Permutation (combine (Split.X_train p) (Split.Y_train p)
               ++ combine (Split.X_test p) (Split.Y_test p))
              (combine X Y).
Proof.
  intros Hsplit.
  destruct (train_test_split_spec _ _ _ _ _ _ _ Hsplit)
    as (LY & _ & HP & _ & _ & -> & -> & -> & ->).
  rewrite <- !take_rows_combine by congruence.
  split; [reflexivity|]. split; [reflexivity|].
  rewrite <- take_rows_app. apply take_rows_Permutation.
  rewrite length_combine, LY, Nat.min_id. exact HP.
Qed.

Lemma split_keeps_rows_with_labels_witness :
  exists p,
    Split.train_test_split (H := Sample.sample_library)
      Sample.ninety_features Sample.ninety_labels (2 # 10) (Some 42) 0 Sample.ninety_labels
    = Ok p /\
    Permutation (combine (Split.X_train p) (Split.Y_train p)
                 ++ combine (Split.X_test p) (Split.Y_test p))
                (combine Sample.ninety_features Sample.ninety_labels).
Proof.
  assert (is_ok (Split.train_test_split (H := Sample.sample_library)
                   Sample.ninety_features Sample.ninety_labels (2 # 10) (Some 42) 0
                   Sample.ninety_labels) = true) as Hok by (vm_compute; reflexivity).
  destruct (Split.train_test_split (H := Sample.sample_library)
              Sample.ninety_features Sample.ninety_labels (2 # 10) (Some 42) 0
              Sample.ninety_labels) as [p|e] eqn:E; [|discriminate].
  exists p. split; [reflexivity|].
  apply (split_keeps_rows_with_labels (H := Sample.sample_library) _ _ _ _ _ _ E).
Defined.

(** X2: when preprocessing succeeds, the label table and the feature
    table have the same number of rows [n], the test part has [n / 5]
    rounded up rows, that is [(n + 4) / 5], features and labels alike, the
    train part has all the others, and the train part is not empty. *)
Theorem test_part_is_a_fifth_rounded_up `{Sklearn}
    (env : Script.Env) (data : Pd.DataFrame Z) (X_raw : Pd.DataFrame Q)
    (pre : Script.Preprocessed) :
  Script.preprocess env data X_raw = Ok pre ->
  let n := Pd.len X_raw in
  let p := Script.partition pre in
  Pd.len data = n /\
  length (Split.X_test p) = ((n + 4) / 5)%nat /\
  length (Split.Y_test p) = ((n + 4) / 5)%nat /\
  length (Split.X_train p) = (n - (n + 4) / 5)%nat /\
  length (Split.Y_train p) = (n - (n + 4) / 5)%nat /\
  (0 < length (Split.X_train p))%nat.
Proof.
  intros Hpre n p.
  destruct (preprocess_inv _ _ _ _ Hpre) as (HY & Hfit & Hsplit). fold p in Hsplit.
  destruct (fit_transform_inv _ _ _ Hfit) as (_ & HX).
  assert (length (Script.X pre) = n) as LX by (rewrite HX; apply length_map).
  apply getitem_length in HY.
  destruct (split_positions_in_range _ _ _ _ _ _ _ Hsplit) as (Rtr & Rte).
  destruct (train_test_split_spec _ _ _ _ _ _ _ Hsplit)
    as (LY & _ & HP & Lte & Ltr & -> & -> & -> & ->).
  pose proof Rtr as Rtr'. pose proof Rte as Rte'. rewrite <- LY in Rtr', Rte'.
  rewrite !take_rows_length by assumption.
  rewrite LX, ceiling_of_a_fifth in Lte, Ltr.
  assert (length (Split.train p) + length (Split.test p) = n)%nat as Hsum.
  { rewrite <- length_app, (Permutation_length HP), length_seq. exact LX. }
  assert (length (Split.train p) <> 0)%nat as Hne.
  { unfold Split.train_test_split in Hsplit.
    destruct (negb _); [discriminate|].
    destruct (Split.validate_shuffle_split _ _) as [[n_train n_test]|] eqn:Ev; [|discriminate].
    destruct (validate_shuffle_split_spec _ _ _ _ Ev) as (_ & Hte & Htr & _ & Hpos).
    rewrite LX, ceiling_of_a_fifth in Hte. lia. }
  split; [congruence|]. repeat split; lia.
Qed.

Lemma test_part_is_a_fifth_rounded_up_witness :
  exists pre,
    Script.preprocess (H := Sample.sample_library) Sample.sample_env
      Sample.sample_labels Sample.sample_features = Ok pre /\
    length (Split.X_test (Script.partition pre)) = 2%nat /\
    length (Split.X_train (Script.partition pre)) = 8%nat.
Proof.
  assert (is_ok (Script.preprocess (H := Sample.sample_library) Sample.sample_env
                   Sample.sample_labels Sample.sample_features) = true)
    as Hok by (vm_compute; reflexivity).
  remember (Script.preprocess (H := Sample.sample_library) Sample.sample_env
              Sample.sample_labels Sample.sample_features) as outcome eqn:E.
  destruct outcome as [pre|e]; [|discriminate].
  exists pre. split; [reflexivity|].
  destruct (test_part_is_a_fifth_rounded_up (H := Sample.sample_library) _ _ _ _
              (eq_sym E)) as (_ & Hte & _ & Htr & _).
  split; [exact Hte|exact Htr].
Defined.

(** ** When the split succeeds *)

Section SplitChecks.
Import Random Split.
Context `{Sklearn}.






End SplitChecks.


(** ** The cells of a 2 x 2 confusion matrix *)

Section ConfusionCells.
Import Metrics.
Context `{Sklearn}.

Lemma count_pairs_marginals (a b : Z) (ps : list (Z * Z)) :
  a <> b ->
  Forall (fun p => (fst p = a \/ fst p = b) /\ (snd p = a \/ snd p = b)) ps ->
  count_pair ps (a, a) + count_pair ps (a, b)
  = Z.of_nat (count_occ Z.eq_dec (map fst ps) a) /\
  count_pair ps (b, a) + count_pair ps (b, b)
  = Z.of_nat (count_occ Z.eq_dec (map fst ps) b) /\
  count_pair ps (a, a) + count_pair ps (b, a)
  = Z.of_nat (count_occ Z.eq_dec (map snd ps) a) /\
  count_pair ps (a, b) + count_pair ps (b, b)
  = Z.of_nat (count_occ Z.eq_dec (map snd ps) b) /\
  count_pair ps (a, a) + count_pair ps (b, b)
  = Z.of_nat (length (filter (fun p => fst p =? snd p) ps)).
Proof.
  intros Hab. unfold count_pair.
  assert ((a =? b) = false) as Eab by (apply Z.eqb_neq; exact Hab).
  assert ((b =? a) = false) as Eba by (apply Z.eqb_neq; congruence).
  induction 1 as [|[t p] ps Hp Hall IH].
  - repeat split; reflexivity.
  - cbn [filter fst snd map count_occ] in *.
    destruct Hp as [[-> | ->] [-> | ->]];
      rewrite !pair_eqb_pair, ?Z.eqb_refl, ?Eab, ?Eba;
      repeat match goal with
             | |- context [Z.eq_dec ?x ?y] => destruct (Z.eq_dec x y); try congruence
             end;
      cbn [andb length]; lia.
Qed.

Lemma combine_fst {A B} (a : list A) (b : list B) :
  length a = length b -> map fst (combine a b) = a /\ map snd (combine a b) = b.
Proof.
  revert b. induction a as [|x a IH]; intros [|y b] Hlen; try discriminate.
  - split; reflexivity.
  - injection Hlen as Hlen. destruct (IH b Hlen) as (E1 & E2).
    cbn. rewrite E1, E2. split; reflexivity.
Qed.

(** The fields of the dictionary that do not depend on the confusion
    matrix. *)
Lemma calculate_metrics_scores (y_true y_pred : Labels) (proba : option (list Q))
      (name : string) (m : Metrics.t) :
  calculate_metrics y_true y_pred proba name = Ok m ->
  model_name m = name /\
  accuracy m = accuracy_score y_true y_pred /\
  precision m = precision_score y_true y_pred /\
  f1 m = f1_score y_true y_pred.
Proof.
  unfold calculate_metrics.
  destruct (confusion_matrix y_true y_pred) as [c|e]; [|discriminate].
  cbn [bind].
  destruct (opt_apply (roc_auc_score y_true) proba) as [roc|e]; cbn [bind].
  2:{ destruct (ravel c) as [|? [|? [|? [|? [|? ?]]]]]; discriminate. }
  destruct (opt_apply (log_loss y_true) proba) as [ll|e]; cbn [bind].
  2:{ destruct (ravel c) as [|? [|? [|? [|? [|? ?]]]]]; discriminate. }
  destruct (ravel c) as [|c1 [|c2 [|c3 [|c4 [|c5 rest]]]]];
    intros [= <-]; cbn [model_name accuracy precision f1]; repeat split; reflexivity.
Qed.

(** A confusion matrix of size four is over two labels, the smaller first;
    its cells count the pairs of true and predicted label. *)
Lemma confusion_matrix_two_labels (y_true y_pred : Labels) (m : list (list Z))
      (c_tn c_fp c_fn c_tp : Z) :
  confusion_matrix y_true y_pred = Ok m ->
  ravel m = [c_tn; c_fp; c_fn; c_tp] ->
  exists neg pos,
    unique_labels y_true y_pred = [neg; pos] /\ neg < pos /\
    length y_true = length y_pred /\
    c_tn = count_pair (combine y_true y_pred) (neg, neg) /\
    c_fp = count_pair (combine y_true y_pred) (neg, pos) /\
    c_fn = count_pair (combine y_true y_pred) (pos, neg) /\
    c_tp = count_pair (combine y_true y_pred) (pos, pos) /\
    Forall (fun p => (fst p = neg \/ fst p = pos) /\ (snd p = neg \/ snd p = pos))
           (combine y_true y_pred).
Proof.
  intros Hm Hravel.
  destruct (confusion_matrix_shape _ _ _ Hm) as (_ & _ & Hsize).
  unfold size in Hsize. fold (ravel m) in Hsize. rewrite Hravel in Hsize. simpl in Hsize.
  assert (length (unique_labels y_true y_pred) = 2%nat) as Hl by nia.
  unfold confusion_matrix in Hm.
  destruct (length y_true =? length y_pred)%nat eqn:Elen; [|discriminate].
  apply Nat.eqb_eq in Elen. injection Hm as <-.
  pose proof (unique_sorted (y_true ++ y_pred)) as Hsorted.
  pose proof (fun z => unique_In z (y_true ++ y_pred)) as Hin.
  unfold unique_labels in *.
  destruct (Np.unique (y_true ++ y_pred)) as [|a [|b [|? ?]]]; try discriminate.
  cbn [map concat app ravel] in Hravel. injection Hravel as <- <- <- <-.
  exists a, b. split; [reflexivity|]. split.
  { apply StronglySorted_inv in Hsorted. destruct Hsorted as (_ & Hlt).
    apply Forall_inv in Hlt. exact Hlt. }
  split; [exact Elen|]. repeat (split; [reflexivity|]).
  eapply Forall_impl; [|apply combine_members].
  intros [t p] [Ht Hp]. simpl in *.
  apply Hin in Ht. apply Hin in Hp. simpl in Ht, Hp. intuition.
Qed.

End ConfusionCells.

(** X4: in a 2 x 2 confusion matrix the labels are the two that occur, the
    smaller one counted as negative.  TN + FP is the number of samples
    whose true label is the negative one, FN + TP the number of those whose
    true label is the positive one, TN + FN and FP + TP are the numbers of
    negative and positive predictions, and the accuracy is
    (TP + TN) / (TP + TN + FP + FN). *)
Theorem confusion_cells_count_each_class `{Sklearn}
    (y_true y_pred : Labels) (proba : option (list Q)) (name : string) (m : Metrics.t) :
  Metrics.calculate_metrics y_true y_pred proba name = Ok m ->
  Metrics.size (Metrics.cm m) = 4%nat ->
  exists neg pos c_tn c_fp c_fn c_tp,
    Metrics.unique_labels y_true y_pred = [neg; pos] /\ neg < pos /\
    Metrics.tn m = Some c_tn /\ Metrics.fp m = Some c_fp /\
    Metrics.fn m = Some c_fn /\ Metrics.tp m = Some c_tp /\
    c_tn + c_fp = Z.of_nat (count_occ Z.eq_dec y_true neg) /\
    c_fn + c_tp = Z.of_nat (count_occ Z.eq_dec y_true pos) /\
    c_tn + c_fn = Z.of_nat (count_occ Z.eq_dec y_pred neg) /\
    c_fp + c_tp = Z.of_nat (count_occ Z.eq_dec y_pred pos) /\
    Metrics.accuracy m
    = (inject_Z (c_tp + c_tn) / inject_Z (c_tp + c_tn + c_fp + c_fn))%Q.
Proof.
  intros Hm Hsize.
  destruct (calculate_metrics_inv _ _ _ _ _ Hm) as (Hcm & _ & _ & _ & Hcase).
  destruct (calculate_metrics_scores _ _ _ _ _ Hm) as (_ & Hacc & _).
  apply size_ravel_4 in Hsize. destruct Hsize as (c_tn & c_fp & c_fn & c_tp & Hr).
  rewrite Hr in Hcase. destruct Hcase as (Htn & Hfp & Hfn & Htp & _).
  destruct (confusion_matrix_two_labels _ _ _ _ _ _ _ Hcm Hr)
    as (neg & pos & Hlabels & Hlt & Hlen & Etn & Efp & Efn & Etp & Hall).
  assert (neg <> pos) as Hne by lia.
  destruct (count_pairs_marginals neg pos _ Hne Hall) as (M1 & M2 & M3 & M4 & M5).
  destruct (combine_fst y_true y_pred Hlen) as (E1 & E2).
  rewrite E1 in M1, M2. rewrite E2 in M3, M4.
  pose proof (count_pairs_two_labels neg pos _ Hne Hall) as Hsum.
  rewrite length_combine, <- Hlen, Nat.min_id in Hsum.
  rewrite <- Etn, <- Efp, <- Efn, <- Etp in *.
  exists neg, pos, c_tn, c_fp, c_fn, c_tp.
  repeat (split; [assumption|]).
  rewrite Hacc. unfold Metrics.accuracy_score. cbn zeta.
  f_equal; f_equal; lia.
Qed.

Lemma confusion_cells_count_each_class_witness :
  exists m,
    Metrics.calculate_metrics (H := Sample.sample_library)
      [1; 0; 1; 1; 0; 1] [1; 1; 1; 0; 0; 1] None "Decision Tree" = Ok m /\
    exists neg pos c_tn c_fp c_fn c_tp,
      Metrics.unique_labels [1; 0; 1; 1; 0; 1] [1; 1; 1; 0; 0; 1] = [neg; pos] /\
      neg < pos /\
      Metrics.tn m = Some c_tn /\ Metrics.fp m = Some c_fp /\
      Metrics.fn m = Some c_fn /\ Metrics.tp m = Some c_tp /\
      c_tn + c_fp = Z.of_nat (count_occ Z.eq_dec [1; 0; 1; 1; 0; 1] neg) /\
      c_fn + c_tp = Z.of_nat (count_occ Z.eq_dec [1; 0; 1; 1; 0; 1] pos) /\
      c_tn + c_fn = Z.of_nat (count_occ Z.eq_dec [1; 1; 1; 0; 0; 1] neg) /\
      c_fp + c_tp = Z.of_nat (count_occ Z.eq_dec [1; 1; 1; 0; 0; 1] pos) /\
      Metrics.accuracy m
      = (inject_Z (c_tp + c_tn) / inject_Z (c_tp + c_tn + c_fp + c_fn))%Q.
Proof.
  eexists. split; [reflexivity|].
  apply (confusion_cells_count_each_class (H := Sample.sample_library)
           [1; 0; 1; 1; 0; 1] [1; 1; 1; 0; 0; 1] None "Decision Tree");
    reflexivity.
Defined.

(** ** A confusion matrix that is not 2 x 2 *)

Section Degenerate.
Import Metrics Split Search Script.
Context `{Sklearn}.





End Degenerate.





(** ** Console output of a model section *)



(** ** The project directories *)

Section ProjectRoot.
Import Paths.

Lemma parents_snoc (l : Path) (c : string) : parents (l ++ [c]) = l :: parents l.
Proof.
  unfold parents. rewrite length_app. cbn [length]. rewrite Nat.add_1_r.
  rewrite seq_S, rev_app_distr. cbn [rev app map Nat.add].
  rewrite firstn_app, firstn_all, Nat.sub_diag. cbn [firstn]. rewrite app_nil_r.
  f_equal. apply map_ext_in. intros k Hk. apply in_rev, in_seq in Hk.
  rewrite firstn_app. replace (k - length l)%nat with O by lia.
  cbn [firstn]. apply app_nil_r.
Qed.

Lemma is_project_snoc (l : Path) (c : string) :
  is_project (l ++ [c]) = String.eqb (Console.upper c) PROJECT_NAME.
Proof. unfold is_project, name. rewrite last_last. reflexivity. Qed.

(** The search from the working directory upwards stops at the deepest
    prefix whose last component is the project name. *)
Lemma nearest_project (cwd : Path) :
  match find is_project (cwd :: parents cwd) with
  | Some root =>
      is_project root = true /\
      exists below,
        cwd = root ++ below /\
        Forall (fun c => String.eqb (Console.upper c) PROJECT_NAME = false) below
  | None => Forall (fun c => String.eqb (Console.upper c) PROJECT_NAME = false) cwd
  end.
Proof.
  induction cwd as [|c l IH] using rev_ind.
  - cbn. constructor.
  - rewrite parents_snoc. cbn [find] in IH |- *. rewrite is_project_snoc.
    destruct (String.eqb (Console.upper c) PROJECT_NAME) eqn:Ec; cbv iota.
    + split; [rewrite is_project_snoc; exact Ec|].
      exists []. split; [symmetry; apply app_nil_r|constructor].
    + match type of IH with
      | match ?up with _ => _ end => destruct up as [root|]
      end.
      * destruct IH as (Hroot & below & -> & Hbelow). split; [exact Hroot|].
        exists (below ++ [c]). split; [symmetry; apply app_assoc|].
        apply Forall_app. split; [exact Hbelow|]. constructor; [exact Ec|constructor].
      * apply Forall_app. split; [exact IH|]. constructor; [exact Ec|constructor].
Qed.

End ProjectRoot.

(** X8: the project root is the working directory itself or its nearest
    ancestor whose name is IBM in any letter case: no directory between the
    root and the working directory has that name.  When no directory on the
    path has that name, the root is the working directory and the warning is
    printed.  The data, outputs and logs directories are children of the
    root.  (For ASCII directory names.) *)
Theorem project_root_is_nearest_project_directory (cwd : Paths.Path) :
  forallb Console.is_ascii cwd = true ->
  let root := fst (Paths.project_root cwd) in
  let warned := snd (Paths.project_root cwd) in
  (warned = false ->
   Console.upper (Paths.name root) = "IBM" /\
   exists below,
     cwd = root ++ below /\ Forall (fun c => Console.upper c <> "IBM") below) /\
  (warned = true ->
   root = cwd /\ Forall (fun c => Console.upper c <> "IBM") cwd) /\
  Paths.data_dir cwd = root ++ ["data"] /\
  Paths.output_dir cwd = root ++ ["outputs"] /\
  Paths.log_dir cwd = root ++ ["logs"].
Proof.
  intros _ root warned.
  assert (forall l, Forall (fun c => String.eqb (Console.upper c) Paths.PROJECT_NAME = false) l ->
                    Forall (fun c => Console.upper c <> "IBM") l) as Hneq.
  { intros l Hl. eapply Forall_impl; [|exact Hl].
    intros c Hc. apply String.eqb_neq. exact Hc. }
  split; [|split; [|repeat split]].
  - intros Hw. pose proof (nearest_project cwd) as Hnear. cbn [find] in Hnear.
    unfold root, warned, Paths.project_root in *.
    destruct (Paths.is_project cwd) eqn:Ecwd; cbn [fst snd] in *.
    + split; [apply String.eqb_eq; exact Ecwd|].
      exists []. split; [symmetry; apply app_nil_r|constructor].
    + destruct (find Paths.is_project (Paths.parents cwd)) as [r|]; cbn [fst snd] in *;
        [|discriminate].
      destruct Hnear as (Hroot & below & Hcwd & Hbelow).
      split; [apply String.eqb_eq; exact Hroot|].
      exists below. split; [exact Hcwd|]. apply Hneq. exact Hbelow.
  - intros Hw. pose proof (nearest_project cwd) as Hnear. cbn [find] in Hnear.
    unfold root, warned, Paths.project_root in *.
    destruct (Paths.is_project cwd) eqn:Ecwd; cbn [fst snd] in *; [discriminate|].
    destruct (find Paths.is_project (Paths.parents cwd)) as [r|]; cbn [fst snd] in *;
      [discriminate|].
    split; [reflexivity|]. apply Hneq. exact Hnear.
Qed.

Lemma project_root_is_nearest_project_directory_witness :
  fst (Paths.project_root ["home"; "andy"; "ibm"; "capstone"; "Ibm"; "notebooks"])
  = ["home"; "andy"; "ibm"; "capstone"; "Ibm"] /\
  Paths.data_dir ["home"; "andy"; "ibm"; "capstone"; "Ibm"; "notebooks"]
  = ["home"; "andy"; "ibm"; "capstone"; "Ibm"; "data"].
Proof.
  destruct (project_root_is_nearest_project_directory
              ["home"; "andy"; "ibm"; "capstone"; "Ibm"; "notebooks"] eq_refl)
    as (_ & _ & Hdata & _).
  split; [reflexivity|exact Hdata].
Defined.

(** ** The candidates of a grid search *)

Section Enumeration.
Import Search.

Lemma insert_item_Permutation (kv : string * list PValue) (l : Grid) :
  Permutation (insert_item kv l) (kv :: l).
Proof.
  induction l as [|kv' l IH]; cbn [insert_item]; [reflexivity|].
  destruct (String.compare (fst kv) (fst kv')); try reflexivity.
  etransitivity; [apply perm_skip; exact IH|]. apply perm_swap.
Qed.

Lemma sorted_items_Permutation (g : Grid) : Permutation (sorted_items g) g.
Proof.
  induction g as [|kv g IH]; cbn; [constructor|].
  fold (sorted_items g). etransitivity; [apply insert_item_Permutation|].
  apply perm_skip. exact IH.
Qed.

Lemma insert_item_Sorted (kv : string * list PValue) (l : Grid) :
  Sorted (fun a b => String.compare (fst a) (fst b) <> Gt) l ->
  Sorted (fun a b => String.compare (fst a) (fst b) <> Gt) (insert_item kv l).
Proof.
  induction 1 as [|kv' l Hl IH Hhd]; cbn [insert_item].
  - repeat constructor.
  - destruct (String.compare (fst kv) (fst kv')) eqn:E.
    + constructor; [constructor; assumption|]. constructor. rewrite E. discriminate.
    + constructor; [constructor; assumption|]. constructor. rewrite E. discriminate.
    + constructor; [exact IH|].
      assert (String.compare (fst kv') (fst kv) <> Gt) as Hle.
      { rewrite String.compare_antisym, E. discriminate. }
      destruct Hhd as [|kv'' l' Hk]; cbn [insert_item].
      * constructor. exact Hle.
      * destruct (String.compare (fst kv) (fst kv'')); constructor; assumption.
Qed.

Lemma sorted_items_Sorted (g : Grid) :
  Sorted (fun a b => String.compare (fst a) (fst b) <> Gt) (sorted_items g).
Proof.
  induction g as [|kv g IH]; cbn; [constructor|].
  apply insert_item_Sorted. exact IH.
Qed.

Lemma product_In_iff (items : Grid) (c : Config) :
  In c (product items)
  <-> Forall2 (fun kv item => fst kv = fst item /\ In (snd kv) (snd item)) c items.
Proof.
  revert c. induction items as [|[k vs] items IH]; intros c; cbn [product].
  - split.
    + intros [<-|[]]. constructor.
    + intros Hc. inversion Hc. left. reflexivity.
  - rewrite in_flat_map. split.
    + intros (v & Hv & Hc). apply in_map_iff in Hc. destruct Hc as (c' & <- & Hc').
      constructor; [split; [reflexivity|exact Hv]|]. apply IH. exact Hc'.
    + intros Hc. inversion Hc as [|[k' v] item c' items' (Hk & Hv) Hrest]; subst.
      cbn [fst snd] in *. subst k'. exists v. split; [exact Hv|].
      apply in_map. apply IH. exact Hrest.
Qed.

Lemma flat_map_same_length {A B} (f : A -> list B) (n : nat) (l : list A) :
  (forall x, length (f x) = n) -> length (flat_map f l) = (length l * n)%nat.
Proof.
  intros Hf. induction l as [|a l IH]; [reflexivity|].
  change (flat_map f (a :: l)) with (f a ++ flat_map f l).
  rewrite length_app, IH, Hf. reflexivity.
Qed.

Lemma product_length (items : Grid) :
  length (product items)
  = fold_right Nat.mul 1%nat (map (fun item => length (snd item)) items).
Proof.
  induction items as [|[k vs] items IH]; cbn [product map fold_right snd]; [reflexivity|].
  rewrite <- IH. apply flat_map_same_length. intros v. apply length_map.
Qed.

Lemma sizes_Permutation (g g' : Grid) :
  Permutation g g' ->
  fold_right Nat.mul 1%nat (map (fun item => length (snd item)) g)
  = fold_right Nat.mul 1%nat (map (fun item => length (snd item)) g').
Proof.
  induction 1 as [|x l l' _ IH|x y l|l l' l'' _ IH1 _ IH2]; cbn [map fold_right].
  - reflexivity.
  - rewrite IH. reflexivity.
  - lia.
  - congruence.
Qed.

Lemma map_cons_NoDup {A} (x : A) (l : list (list A)) :
  NoDup l -> NoDup (map (cons x) l).
Proof.
  induction 1 as [|c l Hc _ IH]; cbn [map]; constructor; [|exact IH].
  intros Hin. apply in_map_iff in Hin. destruct Hin as (c' & E & Hc').
  injection E as ->. contradiction.
Qed.

Lemma product_NoDup (items : Grid) :
  Forall (fun item => NoDup (snd item)) items -> NoDup (product items).
Proof.
  induction 1 as [|[k vs] items Hvs _ IH]; cbn [product].
  - constructor; [intros []|constructor].
  - cbn [snd] in Hvs.
    induction Hvs as [|v vs Hv _ IHvs]; cbn [flat_map]; [constructor|].
    apply NoDup_app.
    + apply map_cons_NoDup. exact IH.
    + exact IHvs.
    + intros c Hc Hc'. apply in_map_iff in Hc. destruct Hc as (c1 & <- & _).
      apply in_flat_map in Hc'. destruct Hc' as (v' & Hv' & Hc').
      apply in_map_iff in Hc'. destruct Hc' as (c2 & E & _).
      injection E as E _. subst v'. apply Hv. exact Hv'.
Qed.

End Enumeration.

(** X9: the candidates of a grid search are all the combinations of the
    grid and nothing else.  The parameters are taken in sorted key order;
    a configuration is a candidate exactly when it gives each parameter, in
    that order, one of its declared values; the number of candidates is the
    product of the lengths of the value lists; and when no value list
    repeats a value, no candidate is tried twice. *)
Theorem parameter_grid_is_exhaustive (g : Search.Grid) :
  let items := Search.sorted_items g in
  Permutation items g /\
  Sorted (fun a b => String.compare (fst a) (fst b) <> Gt) items /\
  (forall c,
      In c (Search.ParameterGrid g)
      <-> Forall2 (fun kv item => fst kv = fst item /\ In (snd kv) (snd item)) c items) /\
  length (Search.ParameterGrid g)
  = fold_right Nat.mul 1%nat (map (fun item => length (snd item)) g) /\
  (Forall (fun item => NoDup (snd item)) g -> NoDup (Search.ParameterGrid g)).
Proof.
  intros items. pose proof (sorted_items_Permutation g) as HP.
  split; [exact HP|]. split; [apply sorted_items_Sorted|].
  split; [intros c; apply product_In_iff|]. split.
  - unfold Search.ParameterGrid. rewrite product_length. apply sizes_Permutation. exact HP.
  - intros Hnd. apply product_NoDup.
    apply Forall_forall. intros item Hitem.
    rewrite Forall_forall in Hnd. apply Hnd.
    eapply Permutation_in; [exact HP|exact Hitem].
Qed.

(** ** The comparison table *)



(** ** Standardized features *)

Section Standardize.
Import Scaler.
Context `{Sklearn}.





Lemma column_scale_nonzero (col : list Q) : ~ (column_scale col == 0)%Q.
Proof.
  unfold column_scale. cbn zeta.
  destruct (Qeq_bool (np_sqrt _) 0) eqn:E.
  - intros E1. discriminate E1.
  - intros E1. apply Qeq_bool_iff in E1. congruence.
Qed.



End Standardize.



(** ** Stratification *)

Section Stratification.
Import Random Split.
Context `{Sklearn}.

Lemma share_as_fraction (c total d : Z) :
  0 < total ->
  (inject_Z c / inject_Z total * inject_Z d == (c * d) # (Z.to_pos total))%Q.
Proof.
  intros Ht. rewrite Qmake_Qdiv, Z2Pos.id by exact Ht. rewrite inject_Z_mult.
  field. intros E. assert (total = 0) by (apply inject_Z_injective; exact E). lia.
Qed.

Lemma share_floor (c total d : Z) :
  0 < total ->
  Qfloor (inject_Z c / inject_Z total * inject_Z d) = c * d / total.
Proof.
  intros Ht. rewrite (Qfloor_comp _ _ (share_as_fraction c total d Ht)).
  unfold Qfloor. rewrite Z2Pos.id by exact Ht. reflexivity.
Qed.

Lemma share_remainder (c total d : Z) :
  0 < total ->
  (0 < inject_Z c / inject_Z total * inject_Z d
       - inject_Z (Qfloor (inject_Z c / inject_Z total * inject_Z d)))%Q ->
  (c * d) mod total <> 0.
Proof.
  intros Ht Hpos Hmod. rewrite share_floor in Hpos by exact Ht.
  rewrite (share_as_fraction c total d Ht) in Hpos.
  assert (c * d = total * (c * d / total)) as E
      by (pose proof (Z.div_mod (c * d) total); lia).
  rewrite E in Hpos at 1.
  assert ((total * (c * d / total)) # Z.to_pos total == inject_Z (c * d / total))%Q as E'.
  { rewrite Qmake_Qdiv, Z2Pos.id by exact Ht. rewrite inject_Z_mult. field.
    intros E0. assert (total = 0) by (apply inject_Z_injective; exact E0). lia. }
  rewrite E' in Hpos. lra.
Qed.

(** Every class gets its share of the draws, rounded down or up. *)
Lemma approximate_mode_rounding (class_counts : list Z) (n_draws : Z) (st : RandomState) :
  (forall c, In c class_counts -> 0 <= c) ->
  0 <= n_draws <= Np.sumZ class_counts ->
  0 < Np.sumZ class_counts ->
  forall i, (i < length class_counts)%nat ->
    let given := nth i (fst (approximate_mode class_counts n_draws st)) 0 in
    let share := nth i class_counts 0 * n_draws in
    given = share / Np.sumZ class_counts \/
    (given = share / Np.sumZ class_counts + 1 /\ share mod Np.sumZ class_counts <> 0).
Proof.
  intros Hnonneg Hdraws Htotal i Hi. cbn zeta. unfold approximate_mode.
  set (total := Np.sumZ class_counts) in *.
  set (share := fun c => (inject_Z c / inject_Z total * inject_Z n_draws)%Q).
  set (cont := map share class_counts).
  set (floored := map Qfloor cont).
  set (remainder := map (fun x => (x - inject_Z (Qfloor x))%Q) cont).
  set (need := n_draws - Np.sumZ floored).
  assert (length cont = length class_counts) as Lc by apply length_map.
  assert (length floored = length class_counts) as Lf
      by (unfold floored; rewrite length_map; exact Lc).
  assert (length remainder = length class_counts) as Lr
      by (unfold remainder; rewrite length_map; exact Lc).
  assert (nth i cont 0%Q = share (nth i class_counts 0)) as Hcont
      by (unfold cont; apply nth_map_in_range; exact Hi).
  assert (nth i floored 0 = nth i class_counts 0 * n_draws / total) as Hfl.
  { unfold floored. rewrite (nth_map_in_range _ _ _ 0%Q) by (rewrite Lc; exact Hi).
    rewrite Hcont. apply share_floor. exact Htotal. }
  assert (nth i remainder 0%Q
          = (share (nth i class_counts 0%Z)
             - inject_Z (Qfloor (share (nth i class_counts 0%Z))))%Q) as Hrem.
  { unfold remainder. rewrite (nth_map_in_range _ _ _ 0%Q) by (rewrite Lc; exact Hi).
    rewrite Hcont. reflexivity. }
  destruct (Z.ltb_spec 0 need) as [Hpos|Hzero]; cbn zeta.
  - assert (Np.sumQ cont == inject_Z n_draws)%Q as Hsum.
    { unfold cont, share. rewrite sumQ_shares. fold total. field.
      intros E0. assert (total = 0) by (apply inject_Z_injective; exact E0). lia. }
    assert (inject_Z need == Np.sumQ remainder)%Q as Hneed.
    { unfold remainder, need. rewrite sumQ_remainders, Hsum. fold floored.
      unfold Z.sub. rewrite inject_Z_plus, inject_Z_opp. ring. }
    assert (forall x, In x remainder -> 0 <= x /\ x < 1)%Q as Hrange.
    { intros x Hx. unfold remainder in Hx. apply in_map_iff in Hx.
      destruct Hx as (c & <- & _). pose proof (Qfloor_le c). pose proof (Qlt_floor c).
      rewrite inject_Z_plus in *. change (inject_Z 1) with 1%Q in *. split; lra. }
    pose proof (add_by_remainder_spec (rev (uniqueQ remainder)) remainder floored need st)
      as Hloop.
    assert (length floored = length remainder) as Hlen by congruence.
    assert (StronglySorted (fun a b => (b < a)%Q) (rev (uniqueQ remainder))) as Hsorted
        by (apply strongly_sorted_rev, uniqueQ_sorted).
    assert (inject_Z need
            <= Np.sumQ (filter (fun x => existsb (Qeq_bool x) (rev (uniqueQ remainder)))
                               remainder))%Q as Hbound.
    { rewrite filter_all; [rewrite Hneed; apply Qle_refl|].
      intros x Hx. rewrite existsb_rev. apply uniqueQ_member. exact Hx. }
    specialize (Hloop Hlen Hsorted Hrange Hpos Hbound). cbn zeta in Hloop.
    destruct Hloop as (_ & _ & Hpoint).
    rewrite <- Lf in Hi.
    destruct (Hpoint i Hi) as [E|(E & Hgt & _)]; rewrite E, Hfl.
    + left. reflexivity.
    + right. split; [reflexivity|].
      rewrite Hrem in Hgt. apply (share_remainder _ _ _ Htotal Hgt).
  - left. cbn [fst]. exact Hfl.
Qed.

Lemma filter_length_Permutation {A} (f : A -> bool) (l l' : list A) :
  Permutation l l' -> length (filter f l) = length (filter f l').
Proof.
  induction 1 as [|x l l' _ IH|x y l|l l' l'' _ IH1 _ IH2]; cbn [filter].
  - reflexivity.
  - destruct (f x); cbn [length]; congruence.
  - destruct (f x), (f y); reflexivity.
  - congruence.
Qed.

Lemma filter_one_label (lab : nat -> Z) (c0 c : Z) (l : list nat) :
  Forall (fun i => lab i = c0) l ->
  length (filter (fun i => lab i =? c) l) = if c0 =? c then length l else O.
Proof.
  induction 1 as [|i l Hi _ IH]; cbn [filter length].
  - destruct (c0 =? c); reflexivity.
  - rewrite Hi. destruct (c0 =? c); cbn [length]; rewrite IH; reflexivity.
Qed.

(** How many train positions carry a given label. *)
Lemma draw_classes_train_counts (lab : nat -> Z) (c : Z) (classes : list Z)
      (cls : list (list nat)) :
  Forall2 (fun c' l => Forall (fun i => lab i = c') l) classes cls ->
  forall n_i t_i st,
    Forall2 (fun l n => 0 <= n <= Z.of_nat (length l)) cls n_i ->
    length t_i = length n_i ->
    Z.of_nat (length (filter (fun i => lab i =? c)
                             (fst (fst (draw_classes cls n_i t_i st)))))
    = Np.sumZ (map (fun '(c', n) => if c' =? c then n else 0) (combine classes n_i)).
Proof.
  induction 1 as [|c0 l0 classes cls Hl0 _ IH]; intros n_i t_i st Hn Ht.
  - reflexivity.
  - inversion Hn as [|? n0 ? ns Hn0 Hns]; subst.
    destruct t_i as [|t0 ts]; [discriminate|]. injection Ht as Ht.
    cbn [draw_classes combine map].
    pose proof (permutation_range_Permutation (length l0) st) as HP.
    destruct (permutation_range (length l0) st) as [perm st1]. cbn [fst] in HP.
    pose proof (take_rows_Permutation l0 perm HP) as Hpi.
    set (pi := Np.take_rows l0 perm) in *.
    specialize (IH ns ts st1 Hns Ht).
    destruct (draw_classes cls ns ts st1) as [[train test] st2]. cbn [fst] in *.
    rewrite filter_app, length_app, Nat2Z.inj_add, IH.
    assert (Forall (fun i => lab i = c0) (firstn (Z.to_nat n0) pi)) as Hfirst.
    { apply Forall_forall. intros i Hi. rewrite Forall_forall in Hl0. apply Hl0.
      eapply Permutation_in; [exact Hpi|].
      rewrite <- (firstn_skipn (Z.to_nat n0) pi). apply in_or_app. left. exact Hi. }
    rewrite (filter_one_label lab c0 c _ Hfirst).
    assert (length (firstn (Z.to_nat n0) pi) = Z.to_nat n0) as Lfirst.
    { rewrite length_firstn, (Permutation_length Hpi). lia. }
    unfold Np.sumZ. cbn [fold_right]. destruct (c0 =? c); [rewrite Lfirst|]; lia.
Qed.

Lemma no_share_outside (c : Z) (classes n_i : list Z) :
  ~ In c classes ->
  Np.sumZ (map (fun '(c', n) => if c' =? c then n else 0) (combine classes n_i)) = 0.
Proof.
  revert n_i. induction classes as [|c0 classes IH]; intros [|n0 ns] Hc; try reflexivity.
  cbn [combine map]. unfold Np.sumZ in *. cbn [fold_right].
  rewrite IH by (intros Hin; apply Hc; right; exact Hin).
  destruct (Z.eqb_spec c0 c) as [->|_]; [|reflexivity].
  exfalso. apply Hc. left. reflexivity.
Qed.

Lemma share_of_class (classes n_i : list Z) (k : nat) :
  NoDup classes -> length n_i = length classes -> (k < length classes)%nat ->
  Np.sumZ (map (fun '(c', n) => if c' =? nth k classes 0 then n else 0)
               (combine classes n_i))
  = nth k n_i 0.
Proof.
  intros Hnd. revert n_i k.
  induction Hnd as [|c0 classes Hc0 Hnd IH]; intros [|n0 ns] k Hlen Hk;
    try discriminate; cbn [length] in *; [lia|].
  injection Hlen as Hlen. cbn [combine map]. unfold Np.sumZ in *. cbn [fold_right].
  destruct k as [|k]; cbn [nth].
  - rewrite Z.eqb_refl. pose proof (no_share_outside c0 classes ns Hc0) as E.
    unfold Np.sumZ in E. rewrite E. lia.
  - assert ((c0 =? nth k classes 0) = false) as Ene.
    { apply Z.eqb_neq. intros E. apply Hc0. rewrite E. apply nth_In. lia. }
    rewrite Ene, IH by (assumption || lia). lia.
Qed.

Lemma count_occ_take_rows (y : Labels) (idx : list nat) (c : Z) :
  Forall (fun i => (i < length y)%nat) idx ->
  count_occ Z.eq_dec (Np.take_rows y idx) c
  = length (filter (fun i => nth i y 0 =? c) idx).
Proof.
  unfold Np.take_rows. induction 1 as [|i idx Hi _ IH]; cbn [flat_map filter].
  - reflexivity.
  - rewrite (nth_error_nth' y 0 Hi). cbn [app count_occ].
    destruct (Z.eq_dec (nth i y 0) c) as [E|E].
    + rewrite E, Z.eqb_refl. cbn [length]. rewrite IH. reflexivity.
    + replace (nth i y 0 =? c) with false by (symmetry; apply Z.eqb_neq; exact E).
      exact IH.
Qed.

(** The train part takes from each class its share of [n_train], rounded
    down or up. *)
Lemma stratified_train_counts (n_train n_test : Z) (random_state : option Z)
      (os_entropy : Z) (y : Labels) (train test : list nat) (c : Z) :
  stratified_shuffle_split n_train n_test random_state os_entropy y = Ok (train, test) ->
  0 <= n_train -> 0 <= n_test -> n_train + n_test = Z.of_nat (length y) ->
  In c y ->
  let got := Z.of_nat (length (filter (fun i => nth i y 0 =? c) train)) in
  let share := Z.of_nat (count_occ Z.eq_dec y c) * n_train in
  got = share / Z.of_nat (length y) \/
  (got = share / Z.of_nat (length y) + 1 /\ share mod Z.of_nat (length y) <> 0).
Proof.
  unfold stratified_shuffle_split. intros Hsplit Htrain Htest Htotal Hc.
  destruct (minimum _) as [least|]; [|discriminate].
  destruct (least <? 2); [discriminate|].
  destruct (n_train <? _); [discriminate|].
  destruct (n_test <? _); [discriminate|].
  set (classes := Np.unique y) in *.
  set (counts := class_counts_of y classes) in *.
  set (cls := class_indices y classes) in *.
  set (rng := check_random_state random_state os_entropy) in *.
  assert (forall c, In c counts -> 0 <= c) as Hnonneg.
  { intros c' Hc'. unfold counts, class_counts_of in Hc'. apply in_map_iff in Hc'.
    destruct Hc' as (? & <- & _). lia. }
  assert (Np.sumZ counts = Z.of_nat (length y)) as Hsum by apply class_counts_sum.
  assert (map (fun l => Z.of_nat (length l)) cls = counts) as Hlens
      by apply class_indices_lengths.
  assert (length counts = length classes) as Lcounts by apply length_map.
  assert (length cls = length classes) as Lcls by apply length_map.
  assert (In c classes) as Hin by (apply unique_In; exact Hc).
  destruct (In_nth _ _ 0 Hin) as (k & Hk & Ek).
  assert (0 < Z.of_nat (length y)) as Hpos by (destruct y; [destruct Hc|cbn; lia]).
  assert (0 <= n_train <= Np.sumZ counts) as Hd by lia.
  assert (0 < Np.sumZ counts) as Hs by lia.
  assert (k < length counts)%nat as Hk' by lia.
  pose proof (approximate_mode_rounding counts n_train rng Hnonneg Hd Hs k Hk') as Hround.
  pose proof (approximate_mode_spec counts n_train rng Hnonneg Hd) as Hmode.
  cbn zeta in Hround, Hmode.
  destruct (approximate_mode counts n_train rng) as [n_i rng1]. cbn [fst] in *.
  destruct Hmode as (Hlen & Hsum_n & Hpoint).
  set (remaining := map (fun '(c, n) => c - n) (combine counts n_i)) in *.
  destruct (approximate_mode remaining n_test rng1) as [t_i rng2] eqn:Et.
  assert (length t_i = length n_i) as Lt.
  { assert (forall c, In c remaining -> 0 <= c) as Hrem_nonneg.
    { intros c' Hc'. apply (In_nth _ _ 0) in Hc'. destruct Hc' as (i & Hi & <-).
      unfold remaining in *. rewrite length_map, length_combine, Hlen, Nat.min_id in Hi.
      rewrite (nth_map_in_range _ _ _ (0, 0))
        by (rewrite length_combine, Hlen, Nat.min_id; exact Hi).
      rewrite combine_nth by congruence. specialize (Hpoint i Hi). lia. }
    assert (Np.sumZ remaining = n_test) as Hrem.
    { unfold remaining. rewrite sumZ_differences by congruence. lia. }
    pose proof (approximate_mode_all remaining rng1 Hrem_nonneg) as Hall.
    rewrite Hrem, Et in Hall. cbn [fst] in Hall. rewrite Hall.
    unfold remaining. rewrite length_map, length_combine. lia. }
  assert (Forall2 (fun l n => 0 <= n <= Z.of_nat (length l)) cls n_i) as Hf2.
  { apply (Forall2_of_nth _ [] 0).
    - congruence.
    - intros i Hi.
      assert (i < length counts)%nat as Hi' by congruence.
      specialize (Hpoint i Hi'). rewrite <- Hlens in Hpoint.
      rewrite (nth_map_in_range _ _ _ []) in Hpoint by exact Hi. exact Hpoint. }
  assert (Forall2 (fun c' l => Forall (fun i => nth i y 0 = c') l) classes cls) as Hlab.
  { unfold cls, class_indices. clear. induction classes as [|c' l IH]; cbn [map].
    - constructor.
    - constructor; [|exact IH]. apply Forall_forall. intros i Hi.
      apply filter_In in Hi. destruct Hi as (_ & Hi). apply Z.eqb_eq. exact Hi. }
  pose proof (draw_classes_train_counts (fun i => nth i y 0) c classes cls Hlab
                n_i t_i rng2 Hf2 Lt) as Hdraw.
  destruct (draw_classes cls n_i t_i rng2) as [[train0 test0] rng3]. cbn [fst] in Hdraw.
  pose proof (permutation_Permutation train0 rng3) as HPtrain.
  destruct (permutation train0 rng3) as [train1 rng4]. cbn [fst] in HPtrain.
  destruct (permutation test0 rng4) as [test1 rng5].
  injection Hsplit as <- _.
  rewrite (filter_length_Permutation _ _ _ HPtrain), Hdraw.
  rewrite <- Ek, share_of_class by (apply unique_NoDup || congruence || exact Hk).
  assert (nth k counts 0 = Z.of_nat (count_occ Z.eq_dec y (nth k classes 0))) as Ecount.
  { unfold counts, class_counts_of.
    rewrite (nth_map_in_range _ _ _ 0) by exact Hk. reflexivity. }
  rewrite Hsum, Ecount in Hround. exact Hround.
Qed.

End Stratification.

(** X12: the split is stratified.  For every class that occurs in the
    labels, the members of the class are divided between the train and the
    test part, and the train part gets the share
    members * n_train / n of the class rounded down, or one more than that
    when the share is not a whole number.  So in both parts the number of
    members of the class differs from the exact proportional share by less
    than one sample. *)
Theorem split_is_stratified `{Sklearn}
    (X : Matrix) (Y : Labels) (test_size : Q) (random_state : option Z)
    (os_entropy : Z) (p : Split.Partition) (c : Z) :
  Split.train_test_split X Y test_size random_state os_entropy Y = Ok p ->
  In c Y ->
  let n := Z.of_nat (length Y) in
  let members := Z.of_nat (count_occ Z.eq_dec Y c) in
  let n_train := Z.of_nat (length (Split.Y_train p)) in
  let n_test := Z.of_nat (length (Split.Y_test p)) in
  let in_train := Z.of_nat (count_occ Z.eq_dec (Split.Y_train p) c) in
  let in_test := Z.of_nat (count_occ Z.eq_dec (Split.Y_test p) c) in
  n_test = Qceiling (test_size * inject_Z n) /\ n_train = n - n_test /\
  in_train + in_test = members /\
  (in_train = members * n_train / n \/
   (in_train = members * n_train / n + 1 /\ (members * n_train) mod n <> 0)) /\
  Z.abs (in_train * n - members * n_train) < n /\
  Z.abs (in_test * n - members * n_test) < n.
Proof.
  intros Hsplit Hc n members n_train n_test in_train in_test.
  destruct (split_positions_in_range _ _ _ _ _ _ _ Hsplit) as (Rtr & Rte).
  destruct (train_test_split_spec _ _ _ _ _ _ _ Hsplit)
    as (LY & _ & HP & Lte & Ltr & _ & _ & Etr & Ete).
  rewrite <- LY in Rtr, Rte, HP, Lte, Ltr.
  assert (n_test = Qceiling (test_size * inject_Z n)) as Hte.
  { unfold n_test. rewrite Ete, take_rows_length by exact Rte. exact Lte. }
  assert (n_train = n - n_test) as Htr.
  { rewrite Hte. unfold n_train. rewrite Etr, take_rows_length by exact Rtr. exact Ltr. }
  assert (in_train + in_test = members) as Hsum.
  { unfold in_train, in_test, members. rewrite Etr, Ete.
    rewrite <- Nat2Z.inj_add, <- count_occ_app, <- take_rows_app. f_equal.
    apply Permutation_count_occ. apply take_rows_Permutation. exact HP. }
  assert (in_train = members * n_train / n \/
          (in_train = members * n_train / n + 1 /\ (members * n_train) mod n <> 0))
    as Hround.
  { unfold Split.train_test_split in Hsplit.
    destruct (negb _); [discriminate|].
    destruct (Split.validate_shuffle_split _ _) as [[n_tr n_te]|] eqn:Ev; [|discriminate].
    cbn [bind] in Hsplit.
    destruct (Split.stratified_shuffle_split n_tr n_te _ _ _) as [[tr te]|] eqn:Es;
      [|discriminate].
    cbn [bind] in Hsplit. apply Ok_inj in Hsplit.
    destruct (validate_shuffle_split_spec _ _ _ _ Ev) as (_ & Hte' & Htr' & Hte0 & Hpos).
    rewrite <- LY in Hte', Htr'.
    assert (n_tr = n_train) as En by (fold n in Hte', Htr'; lia).
    pose proof (stratified_train_counts n_tr n_te _ _ Y tr te c Es) as Hcount.
    cbn zeta in Hcount.
    assert (tr = Split.train p) as Etrain by (rewrite <- Hsplit; reflexivity).
    unfold in_train. rewrite Etr, count_occ_take_rows by exact Rtr.
    rewrite <- Etrain, <- En. apply Hcount; try lia. exact Hc. }
  assert (0 < n) as Hn by (unfold n; destruct Y; [destruct Hc|cbn; lia]).
  repeat (split; [assumption|]).
  pose proof (Z.div_mod (members * n_train) n) as Hdm.
  pose proof (Z.mod_pos_bound (members * n_train) n Hn) as Hmod.
  split.
  - destruct Hround as [E|(E & Hne)]; rewrite E; nia.
  - replace in_test with (members - in_train) by lia.
    replace n_test with (n - n_train) by lia.
    destruct Hround as [E|(E & Hne)]; rewrite E; nia.
Qed.

Lemma split_is_stratified_witness :
  exists p,
    Split.train_test_split (H := Sample.sample_library)
      Sample.ninety_features Sample.ninety_labels (2 # 10) (Some 42) 0 Sample.ninety_labels
    = Ok p /\
    count_occ Z.eq_dec (Split.Y_train p) 0 = 24%nat /\
    count_occ Z.eq_dec (Split.Y_test p) 0 = 6%nat.
Proof.
  assert (is_ok (Split.train_test_split (H := Sample.sample_library)
                   Sample.ninety_features Sample.ninety_labels (2 # 10) (Some 42) 0
                   Sample.ninety_labels) = true) as Hok by (vm_compute; reflexivity).
  destruct (Split.train_test_split (H := Sample.sample_library)
              Sample.ninety_features Sample.ninety_labels (2 # 10) (Some 42) 0
              Sample.ninety_labels) as [p|e] eqn:E; [|discriminate].
  exists p. split; [reflexivity|].
  assert (In 0 Sample.ninety_labels) as Hin by (left; reflexivity).
  destruct (split_is_stratified (H := Sample.sample_library) _ _ _ _ _ _ 0 E Hin)
    as (Hte & Htr & Hsum & Hround & _).
  rewrite Htr, Hte in Hround.
  change (Z.of_nat (length Sample.ninety_labels)) with 90 in Hround.
  change (Qceiling ((2 # 10) * inject_Z 90)) with 18 in Hround.
  change (Z.of_nat (count_occ Z.eq_dec Sample.ninety_labels 0)) with 30 in Hround, Hsum.
  change (30 * (90 - 18) / 90) with 24 in Hround.
  change ((30 * (90 - 18)) mod 90) with 0 in Hround.
  split; lia.
Defined.

(** ** What can stop a run *)

Section Failures.
Import Metrics Split Search Script.
Context `{Sklearn}.









End Failures.




